(** * Accessibility snapshot and query engine (linuxtry.py)

    A shallow embedding of [LinuxUIElement] and [LinuxAccessibilityHandler]
    from computer_server/handlers/linuxtry.py, with the properties of the
    capture (AT-SPI walk, wmctrl fallback) and of the three searches. *)

From Stdlib Require Import List String Ascii ZArith Lia Bool Arith.
Import ListNotations.
Set Warnings "-register-all".
Local Open Scope string_scope.
Local Open Scope list_scope.

(** ** Python [str] operations

    Strings are sequences of code points below 256 (Rocq's [ascii]); the
    character classes are the ones Python's [str] methods use on that range. *)
Module PyStr.

(** [c.isspace()] *)
Definition isspace (c : ascii) : bool :=
  let n := nat_of_ascii c in
  ((9 <=? n)%nat && (n <=? 13)%nat) || ((28 <=? n)%nat && (n <=? 32)%nat)
  || (n =? 133)%nat || (n =? 160)%nat.

(** Line boundaries of [str.splitlines]: LF, VT, FF, CR, FS, GS, RS, NEL. *)
Definition islinebreak (c : ascii) : bool :=
  let n := nat_of_ascii c in
  ((10 <=? n)%nat && (n <=? 13)%nat) || ((28 <=? n)%nat && (n <=? 30)%nat)
  || (n =? 133)%nat.

Definition lower_char (c : ascii) : ascii :=
  let n := nat_of_ascii c in
  if ((65 <=? n)%nat && (n <=? 90)%nat)
     || ((192 <=? n)%nat && (n <=? 222)%nat && negb (n =? 215)%nat)
  then ascii_of_nat (n + 32) else c.

(** [s.lower()] *)
Fixpoint lower (s : string) : string :=
  match s with
  | EmptyString => EmptyString
  | String c r => String (lower_char c) (lower r)
  end.

(** Truth value of a string: [bool(s)]. *)
Definition truthy (s : string) : bool :=
  match s with EmptyString => false | _ => true end.

(** [sub in s] *)
Fixpoint str_in (sub s : string) : bool :=
  if prefix sub s then true
  else match s with
       | EmptyString => false
       | String _ r => str_in sub r
       end.

(** [s.lstrip()] *)
Fixpoint lstrip (s : string) : string :=
  match s with
  | EmptyString => EmptyString
  | String c r => if isspace c then lstrip r else s
  end.

(** [s.rstrip()] *)
Fixpoint rstrip (s : string) : string :=
  match s with
  | EmptyString => EmptyString
  | String c r =>
      match rstrip r with
      | EmptyString => if isspace c then EmptyString else String c EmptyString
      | r' => String c r'
      end
  end.

(** [s.strip()] *)
Definition strip (s : string) : string := rstrip (lstrip s).

(** The maximal run of non-whitespace at the head of [s], and what follows. *)
Fixpoint span_word (s : string) : string * string :=
  match s with
  | EmptyString => (EmptyString, EmptyString)
  | String c r =>
      if isspace c then (EmptyString, s)
      else let (w, rest) := span_word r in (String c w, rest)
  end.

(** [s.split(None, maxsplit)]: runs of whitespace separate the fields; after
    [maxsplit] fields the remainder, from its first non-whitespace character
    to the end of the string, is the last item (if it is not empty). *)
Fixpoint split (maxsplit : nat) (s : string) : list string :=
  match lstrip s with
  | EmptyString => []
  | r =>
      match maxsplit with
      | 0 => [r]
      | S m => let (w, rest) := span_word r in w :: split m rest
      end
  end.

(** [s.splitlines()] *)
Fixpoint splitlines (s : string) : list string :=
  match s with
  | EmptyString => []
  | String c r =>
      if islinebreak c then
        EmptyString ::
          match r with
          | String c' r' =>
              if (nat_of_ascii c =? 13)%nat && (nat_of_ascii c' =? 10)%nat
              then splitlines r' else splitlines r
          | EmptyString => []
          end
      else
        match splitlines r with
        | [] => [String c EmptyString]
        | l :: ls => String c l :: ls
        end
  end.

(** [str(v)] for a value that is a string or [None]. *)
Definition str (v : option string) : string :=
  match v with Some s => s | None => "None" end.

(** [v or ''] *)
Definition or_empty (v : option string) : string :=
  match v with Some s => s | None => "" end.

End PyStr.

(** ** Outcomes of calls that may raise *)

(** A call either returns a value or raises an [Exception]; [Raise e] carries
    [str(e)]. *)
Inductive Res (A : Type) : Type :=
| Ok (a : A)
| Raise (e : string).
Arguments Ok {A} a.
Arguments Raise {A} e.

Definition bind {A B : Type} (m : Res A) (k : A -> Res B) : Res B :=
  match m with
  | Ok a => k a
  | Raise e => Raise e
  end.

(** [try: m  except Exception: default] *)
Definition try_except {A : Type} (m : Res A) (default : A) : A :=
  match m with
  | Ok a => a
  | Raise _ => default
  end.

Definition raises {A : Type} (m : Res A) : bool :=
  match m with Ok _ => false | Raise _ => true end.

Notation "x <- m ;; k" := (bind m (fun x => k))
  (at level 61, m at next level, right associativity).

(** ** The AT-SPI objects the handler reads

    The objects are duck-typed: only the operations the handler calls appear.
    An interface query raises, returns no handle ([None], which the code
    tests with [if iface:]), or returns a handle. *)

Record TextIface : Type := mkTextIface {
  getText : Res (option string)            (* [getText(0, -1)] *)
}.

Record ValueIface : Type := mkValueIface {
  currentValue : Res string                (* [str(iface.currentValue)] *)
}.

Record ComponentIface : Type := mkComponentIface {
  getPosition : Res (Z * Z);               (* [x, y = getPosition(XY_SCREEN)] *)
  getSize : Res (Z * Z)                    (* [width, height = getSize()] *)
}.

(** [iter]: what [for child in accessible] does: it raises at once (the object
    is not iterable), or produces children one after the other; an item
    [Raise e] is a step of the iteration that raises. *)
Inductive Accessible : Type :=
  mkAccessible {
    getRoleName : Res string;
    name : Res (option string);
    queryText : Res (option TextIface);
    queryValue : Res (option ValueIface);
    queryComponent : Res (option ComponentIface);
    iter : Res (list (Res Accessible))
  }.

(** A child of an application as a walk of the handler meets it. The walk
    calls [getRoleName()] on it for the role test, and the constructor, when
    it is called afterwards, calls it again: [tl_getRoleName] is the first
    call, and [tl_object] is the object as the constructor reads it, so
    [getRoleName (tl_object window)] is the second call, which need not do
    what the first did. *)
Record TopLevel : Type := mkTopLevel {
  tl_getRoleName : Res string;
  tl_object : Accessible
}.

(** An application, and the desktop: [childCount] and [getChildAtIndex]. *)
Record App : Type := mkApp {
  app_childCount : Res Z;
  app_getChildAtIndex : nat -> Res TopLevel
}.

Record Desktop : Type := mkDesktop {
  desktop_childCount : Res Z;
  desktop_getChildAtIndex : nat -> Res App
}.

(** What one request sees of its environment: [pyatspi.Registry.getDesktop(0)],
    [subprocess.check_output(['wmctrl', '-l'], text=True)], and the number of
    nested calls Python still allows where the handler calls the constructor
    (see [LinuxUIElement_init]). *)
Record World : Type := mkWorld {
  getDesktop : Res Desktop;
  wmctrl : Res string;
  call_depth : nat
}.

(** ** LinuxUIElement *)

Inductive LinuxUIElement : Type :=
  mkElement {
    role : string;
    title : string;
    value : string;
    x : Z;
    y : Z;
    width : Z;
    height : Z;
    children : list LinuxUIElement
  }.

(** The dictionary [to_dict] builds (and the literal of the wmctrl stubs):
    the same eight keys every time. *)
Inductive WindowDict : Type :=
  mkDict {
    d_role : string;
    d_title : string;
    d_value : string;
    d_x : Z;
    d_y : Z;
    d_width : Z;
    d_height : Z;
    d_children : list WindowDict
  }.

(** [self.role] *)
Definition init_role (accessible : Accessible) : string :=
  try_except (getRoleName accessible) "".

(** [self.title] *)
Definition init_title (accessible : Accessible) : string :=
  try_except (n <- name accessible ;; Ok (PyStr.or_empty n)) "".

(** The body of the outer [try] of the value block: what it assigns to
    [self.value] (which is [''] before), or the exception. *)
Definition try_text (accessible : Accessible) : Res string :=
  text_iface <- queryText accessible ;;
  match text_iface with
  | Some t => s <- getText t ;; Ok (PyStr.or_empty s)
  | None => Ok ""
  end.

(** The body of the inner [try]. *)
Definition try_value (accessible : Accessible) : Res string :=
  val_iface <- queryValue accessible ;;
  match val_iface with
  | Some v => currentValue v
  | None => Ok ""
  end.

(** [self.value], given [self.title]. *)
Definition init_value (accessible : Accessible) (title : string) : string :=
  match try_text accessible with
  | Ok v => v
  | Raise _ => try_except (try_value accessible) title
  end.

(** [self.x, self.y, self.width, self.height]: all 0, then the two reads in
    turn, each assigning its pair. *)
Definition init_geometry (accessible : Accessible) : Z * Z * Z * Z :=
  match queryComponent accessible with
  | Ok (Some comp) =>
      match getPosition comp with
      | Ok (px, py) =>
          match getSize comp with
          | Ok (w, h) => (px, py, w, h)
          | Raise _ => (px, py, 0, 0)
          end
      | Raise _ => (0, 0, 0, 0)
      end
  | Ok None => (0, 0, 0, 0)
  | Raise _ => (0, 0, 0, 0)
  end%Z.

(** The loop [for child in accessible] over the items of the iteration, with
    [self.children] threaded through: a child whose constructor raises is
    skipped ([continue]); a step of the iteration that raises ends the loop
    (the outer [except]). *)
Fixpoint append_children (ctor : Accessible -> Res LinuxUIElement)
    (items : list (Res Accessible)) (children : list LinuxUIElement)
  : list LinuxUIElement :=
  match items with
  | [] => children
  | Raise _ :: _ => children
  | Ok child :: rest =>
      match ctor child with
      | Ok child_elem => append_children ctor rest (children ++ [child_elem])
      | Raise _ => append_children ctor rest children
      end
  end.

(** [self.children] *)
Definition init_children (ctor : Accessible -> Res LinuxUIElement)
    (accessible : Accessible) : list LinuxUIElement :=
  match iter accessible with
  | Ok items => append_children ctor items []
  | Raise _ => []
  end.

(** An object on which every call raises RecursionError. *)
Definition out_of_depth : Accessible :=
  mkAccessible (Raise "maximum recursion depth exceeded")
    (Raise "maximum recursion depth exceeded")
    (Raise "maximum recursion depth exceeded")
    (Raise "maximum recursion depth exceeded")
    (Raise "maximum recursion depth exceeded")
    (Raise "maximum recursion depth exceeded").

(** What the calls of a constructor that has [d] nested calls left do: with
    none left each of them raises RecursionError (which is an [Exception],
    so the handlers of the constructor catch it). *)
Definition at_depth (d : nat) (accessible : Accessible) : Accessible :=
  match d with
  | 0 => out_of_depth
  | S _ => accessible
  end.

(** [LinuxUIElement(accessible)] where Python allows [depth] more nested
    calls: with none the call itself raises RecursionError; with one the
    constructor runs and every call it makes raises; the constructor of a
    child runs one call deeper. *)
Fixpoint LinuxUIElement_init (depth : nat) (accessible : Accessible)
  : Res LinuxUIElement :=
  match depth with
  | 0 => Raise "maximum recursion depth exceeded"
  | S d =>
      let accessible := at_depth d accessible in
      let title := init_title accessible in
      let '(x, y, width, height) := init_geometry accessible in
      Ok (mkElement (init_role accessible) title (init_value accessible title)
            x y width height
            (init_children (LinuxUIElement_init d) accessible))
  end.

Fixpoint to_dict (self : LinuxUIElement) : WindowDict :=
  match self with
  | mkElement role title value x y width height children =>
      mkDict role title value x y width height (map to_dict children)
  end.

(** The two tests of [contains_value] on the node itself. *)
Definition matches_self (self : LinuxUIElement) (search_value : string) : bool :=
  (PyStr.truthy (value self)
   && PyStr.str_in (PyStr.lower search_value) (PyStr.lower (value self)))
  || (PyStr.truthy (title self)
      && PyStr.str_in (PyStr.lower search_value) (PyStr.lower (title self))).

Fixpoint contains_value (self : LinuxUIElement) (search_value : option string)
  : bool :=
  match search_value with
  | None => false
  | Some v =>
      if matches_self self v then true
      else
        match self with
        | mkElement _ _ _ _ _ _ _ children =>
            existsb (fun child => contains_value child search_value) children
        end
  end.

(** ** LinuxAccessibilityHandler *)

(** The calls a request makes outside the process, in order. *)
Inductive Call : Type :=
| CallGetDesktop            (* [pyatspi.Registry.getDesktop(0)] *)
| CallWmctrl.               (* [subprocess.check_output(['wmctrl', '-l'])] *)

(** The three shapes of result dictionary. *)
Inductive Response : Type :=
| Windows (windows : list WindowDict)  (* [{"success": True, "windows": ...}] *)
| Window (window : WindowDict)         (* [{"success": True, "window": ...}] *)
| Error (error : string).              (* [{"success": False, "error": ...}] *)

(** [result.get("success")] *)
Definition success (result : Response) : bool :=
  match result with Error _ => false | _ => true end.

(** [result.get("windows", [])] *)
Definition get_windows_key (result : Response) : list WindowDict :=
  match result with Windows windows => windows | _ => [] end.

(** [range(n)] *)
Definition range (n : Z) : list nat := seq 0 (Z.to_nat n).

(** [role]: [window.getRoleName().lower()], [''] if that raises. *)
Definition window_role (window : TopLevel) : string :=
  try_except (r <- tl_getRoleName window ;; Ok (PyStr.lower r)) "".

(** [role in ("frame", "window", "dialog")] *)
Definition is_toplevel_role (role : string) : bool :=
  existsb (String.eqb role) ["frame"; "window"; "dialog"].

(** [get_windows]: the loop [for j in range(app.childCount)], threading
    [windows]; an exception of [getChildAtIndex] leaves the loop. *)
Fixpoint get_windows_app (depth : nat) (app : App) (js : list nat)
    (windows : list WindowDict) : Res (list WindowDict) :=
  match js with
  | [] => Ok windows
  | j :: js' =>
      window <- app_getChildAtIndex app j ;;
      if is_toplevel_role (window_role window) then
        match LinuxUIElement_init depth (tl_object window) with
        | Ok ui_elem =>
            get_windows_app depth app js' (windows ++ [to_dict ui_elem])
        | Raise _ => get_windows_app depth app js' windows
        end
      else get_windows_app depth app js' windows
  end.

(** [get_windows]: the loop [for i in range(desktop.childCount)]. *)
Fixpoint get_windows_desktop (depth : nat) (desktop : Desktop) (ixs : list nat)
    (windows : list WindowDict) : Res (list WindowDict) :=
  match ixs with
  | [] => Ok windows
  | i :: ixs' =>
      app <- desktop_getChildAtIndex desktop i ;;
      n <- app_childCount app ;;
      windows' <- get_windows_app depth app (range n) windows ;;
      get_windows_desktop depth desktop ixs' windows'
  end.

(** [get_windows]: the AT-SPI walk, from [getDesktop(0)] to the end of the
    loops. *)
Definition get_windows_atspi (w : World) : Res (list WindowDict) :=
  desktop <- getDesktop w ;;
  n <- desktop_childCount desktop ;;
  get_windows_desktop (call_depth w) desktop (range n) [].

(** The dictionary appended for a wmctrl line. *)
Definition wmctrl_window (title : string) : WindowDict :=
  mkDict "window" (PyStr.strip title) "" 0 0 0 0 [].

(** [get_windows]: the loop over the lines of the wmctrl output. The
    unpacking [_, _, _, title = parts] raises unless there are exactly four
    parts; the [except] around the loop then keeps what was appended. *)
Fixpoint get_windows_wmctrl (lines : list string) (windows : list WindowDict)
  : list WindowDict :=
  match lines with
  | [] => windows
  | line :: rest =>
      let parts := PyStr.split 3 line in
      if (4 <=? List.length parts)%nat then
        match parts with
        | [_; _; _; title] =>
            get_windows_wmctrl rest (windows ++ [wmctrl_window title])
        | _ => windows
        end
      else get_windows_wmctrl rest windows
  end.

(** [get_windows]: the block under [if not windows]. *)
Definition get_windows_fallback (w : World) : list WindowDict :=
  match wmctrl w with
  | Ok wm_output => get_windows_wmctrl (PyStr.splitlines wm_output) []
  | Raise _ => []
  end.

Definition get_windows (w : World) : Response * list Call :=
  match get_windows_atspi w with
  | Ok [] => (Windows (get_windows_fallback w), [CallGetDesktop; CallWmctrl])
  | Ok windows => (Windows windows, [CallGetDesktop])
  | Raise e => (Error e, [CallGetDesktop])
  end.

Definition find_window_by_title (title : string) (w : World)
  : Response * list Call :=
  let (result, calls) := get_windows w in
  if negb (success result) then (result, calls)
  else
    match find (fun win => PyStr.str_in (PyStr.lower title)
                                        (PyStr.lower (d_title win)))
               (get_windows_key result) with
    | Some win => (Window win, calls)
    | None =>
        (Error ("No window with title containing '" ++ title ++ "' found"),
         calls)
    end.

Definition find_window_by_role (role : string) (w : World)
  : Response * list Call :=
  let (result, calls) := get_windows w in
  if negb (success result) then (result, calls)
  else
    match filter (fun win => PyStr.lower (d_role win) =? PyStr.lower role)
                 (get_windows_key result) with
    | [] => (Error ("No windows with role '" ++ role ++ "' found"), calls)
    | matches => (Windows matches, calls)
    end.

(** [find_window_by_value]: the inner loop; [Ok (Some d)] is the [return]
    inside it. *)
Fixpoint find_window_by_value_app (depth : nat) (app : App) (js : list nat)
    (value : option string) : Res (option WindowDict) :=
  match js with
  | [] => Ok None
  | j :: js' =>
      window <- app_getChildAtIndex app j ;;
      if is_toplevel_role (window_role window) then
        ui_elem <- LinuxUIElement_init depth (tl_object window) ;;
        if contains_value ui_elem value then Ok (Some (to_dict ui_elem))
        else find_window_by_value_app depth app js' value
      else find_window_by_value_app depth app js' value
  end.

Fixpoint find_window_by_value_desktop (depth : nat) (desktop : Desktop)
    (ixs : list nat) (value : option string) : Res (option WindowDict) :=
  match ixs with
  | [] => Ok None
  | i :: ixs' =>
      app <- desktop_getChildAtIndex desktop i ;;
      n <- app_childCount app ;;
      found <- find_window_by_value_app depth app (range n) value ;;
      match found with
      | Some d => Ok (Some d)
      | None => find_window_by_value_desktop depth desktop ixs' value
      end
  end.

Definition find_window_by_value (value : option string) (w : World)
  : Response * list Call :=
  (match (desktop <- getDesktop w ;;
          n <- desktop_childCount desktop ;;
          find_window_by_value_desktop (call_depth w) desktop (range n) value)
   with
   | Ok (Some d) => Window d
   | Ok None =>
       Error ("No window with value '" ++ PyStr.str value ++ "' found")
   | Raise e => Error e
   end,
   [CallGetDesktop]).


(** ** LinuxAutomationHandler *)

Section Automation.

(** Python's floats, which the handler only passes on (durations and
    intervals). *)
Context {float : Type}.

(** The calls the handler makes to pyautogui and pyperclip, with the
    arguments it passes. [pyautogui_moveTo] has no duration when the
    keyword is not passed. *)
Inductive GuiCall : Type :=
| pyautogui_click (x y : Z) (button : string)
| pyautogui_doubleClick (x y : Z)
| pyautogui_moveTo (x y : Z) (duration : option float)
| pyautogui_dragTo (x y : Z) (duration : float)
| pyautogui_scroll (amount : Z)
| pyautogui_write (text : string) (interval : float)
| pyautogui_press (key : string)
| pyautogui_hotkey (keys : list string)
| pyperclip_paste
| pyperclip_copy (text : string).

(** What a call does, given the calls made before it in the request: it
    returns (a text, which only [pyperclip_paste] uses) or raises. *)
Definition Gui : Type := list GuiCall -> GuiCall -> Res string.

(** The result dictionaries of the handler. *)
Inductive AutomationResult : Type :=
| Performed                     (* [{"success": True}] *)
| Pasted (text : string)        (* [{"success": True, "text": text}] *)
| NotPerformed (error : string). (* [{"success": False, "error": str(e)}] *)

(** [try: <the calls of todo, in turn>; return {"success": True}
     except Exception as e: return {"success": False, "error": str(e)}],
    with the calls made so far. *)
Fixpoint attempt (gui : Gui) (made todo : list GuiCall)
  : AutomationResult * list GuiCall :=
  match todo with
  | [] => (Performed, made)
  | call :: rest =>
      match gui made call with
      | Ok _ => attempt gui (made ++ [call]) rest
      | Raise e => (NotPerformed e, made ++ [call])
      end
  end.

Definition click (gui : Gui) (x y : Z) (button : string) :=
  attempt gui [] [pyautogui_click x y button].

Definition double_click (gui : Gui) (x y : Z) :=
  attempt gui [] [pyautogui_doubleClick x y].

Definition right_click (gui : Gui) (x y : Z) :=
  attempt gui [] [pyautogui_click x y "right"].

Definition move_to (gui : Gui) (x y : Z) (duration : float) :=
  attempt gui [] [pyautogui_moveTo x y (Some duration)].

Definition drag_to (gui : Gui) (x y : Z) (duration : float) :=
  attempt gui [] [pyautogui_dragTo x y duration].

(** [scroll(amount, x=None, y=None)] *)
Definition scroll (gui : Gui) (amount : Z) (x y : option Z) :=
  attempt gui []
    (match x, y with
     | Some px, Some py => [pyautogui_moveTo px py None]
     | _, _ => []
     end ++ [pyautogui_scroll amount]).

Definition type (gui : Gui) (text : string) (interval : float) :=
  attempt gui [] [pyautogui_write text interval].

Definition press_key (gui : Gui) (key : string) :=
  attempt gui [] [pyautogui_press key].

Definition hotkey (gui : Gui) (keys : list string) :=
  attempt gui [] [pyautogui_hotkey keys].

Definition get_clipboard (gui : Gui) : AutomationResult * list GuiCall :=
  match gui [] pyperclip_paste with
  | Ok text => (Pasted text, [pyperclip_paste])
  | Raise e => (NotPerformed e, [pyperclip_paste])
  end.

Definition set_clipboard (gui : Gui) (text : string) :=
  attempt gui [] [pyperclip_copy text].

End Automation.

Arguments GuiCall float : clear implicits.
Arguments Gui float : clear implicits.

(** ** linux.py: the handler over wmctrl alone *)

Module Wmctrl.

(** The dictionary [{"id": ..., "title": ...}] of a listed window. *)
Record Entry : Type := mkEntry {
  id : string;
  title : string
}.

(** The result dictionaries of [find_element]. *)
Inductive ElementResult : Type :=
| Element (element : Entry)      (* [{"success": True, "element": ...}] *)
| NoElement (error : string).    (* [{"success": False, "error": ...}] *)

(** [get_all_windows]: the loop over the lines of the output. The unpacking
    [win_id, _, _, title = parts] raises unless there are exactly four
    parts. *)
Fixpoint get_all_windows_lines (lines : list string) (windows : list Entry)
  : Res (list Entry) :=
  match lines with
  | [] => Ok windows
  | line :: rest =>
      let parts := PyStr.split 3 line in
      if (List.length parts <? 4)%nat then get_all_windows_lines rest windows
      else
        match parts with
        | [win_id; _; _; title] =>
            get_all_windows_lines rest (windows ++ [mkEntry win_id title])
        | _ => Raise "too many values to unpack (expected 4)"
        end
  end.

(** [get_all_windows], given what
    [subprocess.run(["wmctrl", "-l"], capture_output=True, text=True,
    check=True)] does: it returns with that standard output, or raises. *)
Definition get_all_windows (run : Res string) : list Entry :=
  try_except
    (stdout <- run ;; get_all_windows_lines (PyStr.splitlines stdout) [])
    [].

(** [find_element(role, title, value)] *)
Definition find_element (run : Res string) (role title value : option string)
  : ElementResult :=
  let all_w := get_all_windows run in
  let matching :=
    match title with
    | Some t =>
        if PyStr.truthy t
        then filter (fun w => PyStr.str_in (PyStr.lower t)
                                           (PyStr.lower (Wmctrl.title w)))
                    all_w
        else all_w
    | None => all_w
    end in
  match matching with
  | [] => NoElement ("No window matching '" ++ PyStr.str title ++ "'")
  | first :: _ => Element first
  end.

End Wmctrl.
(** * Notions used in the statements *)

(** Whether an interface gives content: its query returns a handle and the
    read on it returns ([Content]); the query returns without a handle
    ([NoHandle]); the query or the read raises ([Unavailable]). *)
Inductive Availability : Type :=
| Content (s : string)
| NoHandle
| Unavailable.

Definition text_availability (a : Accessible) : Availability :=
  match queryText a with
  | Ok (Some t) =>
      match getText t with
      | Ok s => Content (PyStr.or_empty s)
      | Raise _ => Unavailable
      end
  | Ok None => NoHandle
  | Raise _ => Unavailable
  end.

Definition value_availability (a : Accessible) : Availability :=
  match queryValue a with
  | Ok (Some v) =>
      match currentValue v with
      | Ok s => Content s
      | Raise _ => Unavailable
      end
  | Ok None => NoHandle
  | Raise _ => Unavailable
  end.

(** The priority chain in the words of the specification: the text if the
    text interface is available, else the scalar value if that interface is
    available, else the title (which is empty when there is none). An
    interface without a handle is not available. *)
Definition value_by_priority (a : Accessible) : string :=
  match text_availability a with
  | Content s => s
  | _ =>
      match value_availability a with
      | Content s => s
      | _ => match name a with Ok (Some n) => n | _ => "" end
      end
  end.

(** Whether reading the bounding box fails at some point. *)
Definition geometry_read_fails (a : Accessible) : bool :=
  match queryComponent a with
  | Ok (Some comp) => raises (getPosition comp) || raises (getSize comp)
  | Ok None => true
  | Raise _ => true
  end.

(** The children that get built from the items of an iteration: those
    produced before the iteration raises ([yielded]) whose constructor
    returns ([built]). *)
Fixpoint yielded (items : list (Res Accessible)) : list Accessible :=
  match items with
  | Ok child :: rest => child :: yielded rest
  | _ => []
  end.

Definition built (ctor : Accessible -> Res LinuxUIElement)
    (l : list Accessible) : list LinuxUIElement :=
  flat_map (fun child => match ctor child with
                         | Ok child_elem => [child_elem]
                         | Raise _ => []
                         end) l.


(** The number of whitespace-delimited fields of a line: the maximal runs of
    characters that are not whitespace. [in_field] tells whether the
    character before belongs to a field. *)
Fixpoint count_fields (in_field : bool) (s : string) : nat :=
  match s with
  | EmptyString => 0
  | String c r =>
      if PyStr.isspace c then count_fields false r
      else (if in_field then 0 else 1) + count_fields true r
  end.

Definition fields (line : string) : nat := count_fields false line.

(** Every character of [s] satisfies [p]. *)
Fixpoint str_forallb (p : ascii -> bool) (s : string) : bool :=
  match s with
  | EmptyString => true
  | String c r => p c && str_forallb p r
  end.

(** [s] is whitespace only. *)
Definition blank (s : string) : bool := str_forallb PyStr.isspace s.

(** [s] is a field: not empty, no whitespace. *)
Definition is_field (s : string) : bool :=
  PyStr.truthy s && str_forallb (fun c => negb (PyStr.isspace c)) s.

(** [s] is a separator: not empty, whitespace only. *)
Definition is_separator (s : string) : bool := PyStr.truthy s && blank s.

(** [s] starts with a character that is not whitespace. *)
Definition starts_field (s : string) : bool :=
  match s with
  | EmptyString => false
  | String c _ => negb (PyStr.isspace c)
  end.

(** The shape of a line with at least four fields, as [split(None, 3)] cuts
    it: three fields with their separators, then the rest of the line from
    its first character that is not whitespace. *)
Definition cut_in_four (line f1 f2 f3 rest : string) : Prop :=
  exists ws0 ws1 ws2 ws3,
    line = (ws0 ++ f1 ++ ws1 ++ f2 ++ ws2 ++ f3 ++ ws3 ++ rest)%string
    /\ blank ws0 = true /\ is_field f1 = true
    /\ is_separator ws1 = true /\ is_field f2 = true
    /\ is_separator ws2 = true /\ is_field f3 = true
    /\ is_separator ws3 = true /\ starts_field rest = true.

(** The top-level children the walk over the desktop obtains, in order, up
    to the first enumeration call ([childCount], [getChildAtIndex]) that
    raises, and the exception of that call. *)
Fixpoint app_windows (app : App) (js : list nat)
  : list TopLevel * option string :=
  match js with
  | [] => ([], None)
  | j :: js' =>
      match app_getChildAtIndex app j with
      | Ok window =>
          let (ws, fault) := app_windows app js' in (window :: ws, fault)
      | Raise e => ([], Some e)
      end
  end.

Fixpoint desktop_windows (desktop : Desktop) (ixs : list nat)
  : list TopLevel * option string :=
  match ixs with
  | [] => ([], None)
  | i :: ixs' =>
      match desktop_getChildAtIndex desktop i with
      | Ok app =>
          match app_childCount app with
          | Ok n =>
              match app_windows app (range n) with
              | (ws, None) =>
                  let (ws', fault) := desktop_windows desktop ixs' in
                  (ws ++ ws', fault)
              | (ws, Some e) => (ws, Some e)
              end
          | Raise e => ([], Some e)
          end
      | Raise e => ([], Some e)
      end
  end.

Definition enumeration (w : World) : list TopLevel * option string :=
  match getDesktop w with
  | Ok desktop =>
      match desktop_childCount desktop with
      | Ok n => desktop_windows desktop (range n)
      | Raise e => ([], Some e)
      end
  | Raise e => ([], Some e)
  end.

(** The children with a window-like role. *)
Definition toplevel (l : list TopLevel) : list TopLevel :=
  filter (fun window => is_toplevel_role (window_role window)) l.

(** The trees built from the window-like children among [l]. *)
Definition trees (depth : nat) (l : list TopLevel) : list LinuxUIElement :=
  built (LinuxUIElement_init depth) (map tl_object (toplevel l)).

(** The trees the walk of [get_windows] builds from what was enumerated. *)
Definition window_trees (w : World) : list LinuxUIElement :=
  trees (call_depth w) (fst (enumeration w)).

(** The first of those trees that contains [value]. *)
Definition hit (depth : nat) (value : option string) (l : list TopLevel)
  : option LinuxUIElement :=
  find (fun e => contains_value e value) (trees depth l).

(** The nodes of a tree, each node before its descendants, children in
    order. *)
Fixpoint preorder (e : LinuxUIElement) : list LinuxUIElement :=
  e :: match e with
       | mkElement _ _ _ _ _ _ _ children => flat_map preorder children
       end.

(** The match of a query on one node, in the words of the claim: the
    query is contained, without regard to case, in the node's value or in
    its title; a node whose value and title are both empty matches no
    query. *)
Definition node_matches (q : string) (n : LinuxUIElement) : bool :=
  if (value n =? "") && (title n =? "") then false
  else PyStr.str_in (PyStr.lower q) (PyStr.lower (value n))
       || PyStr.str_in (PyStr.lower q) (PyStr.lower (title n)).

(** The tree a dictionary describes: its eight keys, children in order. *)
Fixpoint from_dict (d : WindowDict) : LinuxUIElement :=
  match d with
  | mkDict role title value x y width height children =>
      mkElement role title value x y width height (map from_dict children)
  end.

(** The test of [find_window_by_title] on one window. *)
Definition title_contains (title : string) (win : WindowDict) : bool :=
  PyStr.str_in (PyStr.lower title) (PyStr.lower (d_title win)).

(** [s] ends with a character that is not whitespace. *)
Fixpoint ends_field (s : string) : bool :=
  match s with
  | EmptyString => false
  | String c EmptyString => negb (PyStr.isspace c)
  | String _ r => ends_field r
  end.

(** What a line of the wmctrl output adds to [windows]. *)
Definition line_windows (line : string) : list WindowDict :=
  match PyStr.split 3 line with
  | [_; _; _; title] => [wmctrl_window title]
  | _ => []
  end.

(** Induction on a tree of elements, with the property for all children. *)
Fixpoint LinuxUIElement_tree_ind (P : LinuxUIElement -> Prop)
    (step : forall r t v px py w h cs,
        Forall P cs -> P (mkElement r t v px py w h cs))
    (e : LinuxUIElement) : P e :=
  match e with
  | mkElement r t v px py w h cs =>
      step r t v px py w h cs
        ((fix all (l : list LinuxUIElement) : Forall P l :=
            match l with
            | [] => Forall_nil P
            | c :: l' =>
                Forall_cons c (LinuxUIElement_tree_ind P step c) (all l')
            end) cs)
  end.

(** Every window of the walk answers the role read of the constructor as
    it answered the role read of the walk. *)
Definition stable_roles (w : World) : Prop :=
  forall c, In c (fst (enumeration w)) ->
            getRoleName (tl_object c) = tl_getRoleName c.

(** What a line of the wmctrl output adds to the list of
    [Wmctrl.get_all_windows]. *)
Definition line_entries (line : string) : list Wmctrl.Entry :=
  match PyStr.split 3 line with
  | [win_id; _; _; title] => [Wmctrl.mkEntry win_id title]
  | _ => []
  end.

(** The test of [Wmctrl.find_element] on one listed window. *)
Definition entry_title_contains (t : string) (e : Wmctrl.Entry) : bool :=
  PyStr.str_in (PyStr.lower t) (PyStr.lower (Wmctrl.title e)).

(** * Sample objects *)

Definition not_implemented {A : Type} : Res A := Raise "NotImplementedError".

(** A node with a role and a name, no interfaces, and the given children. *)
Definition plain (role name : string) (kids : list Accessible) : Accessible :=
  mkAccessible (Ok role) (Ok (Some name)) not_implemented not_implemented
    not_implemented (Ok (map Ok kids)).

(** An entry field: text content, a scalar value too, and a bounding box. *)
Definition entry : Accessible :=
  mkAccessible (Ok "text") (Ok (Some "search")) 
    (Ok (Some (mkTextIface (Ok (Some "needle")))))
    (Ok (Some (mkValueIface (Ok "0.0"))))
    (Ok (Some (mkComponentIface (Ok (3, 4)%Z) (Ok (50, 20)%Z)))) (Ok []).

(** The same field when its role and its name cannot be read. *)
Definition entry_unnamed : Accessible :=
  mkAccessible (Raise "defunct") (Raise "defunct")
    (queryText entry) (queryValue entry) (queryComponent entry) (Ok []).

(** A panel whose position can be read and whose size cannot. *)
Definition panel_without_size : Accessible :=
  mkAccessible (Ok "panel") (Ok (Some "side")) not_implemented not_implemented
    (Ok (Some (mkComponentIface (Ok (10, 20)%Z) (Raise "timeout")))) (Ok []).

(** A constructor that refuses the nodes whose role cannot be read, for the
    loop over the children taken alone. *)
Definition picky_ctor (a : Accessible) : Res LinuxUIElement :=
  match getRoleName a with
  | Ok r => Ok (mkElement r "" "" 0 0 0 0 [])
  | Raise e => Raise e
  end.

Definition button_ok : Accessible := plain "push button" "OK" [].
Definition button_cancel : Accessible := plain "push button" "Cancel" [].

(** An application and a desktop with the given children: [childCount] is
    their number and [getChildAtIndex] indexes them. *)
Definition app_of (l : list Accessible) : App :=
  mkApp (Ok (Z.of_nat (List.length l)))
    (fun j => match nth_error l j with
              | Some c => Ok (mkTopLevel (getRoleName c) c)
              | None => Raise "IndexError"
              end).

Definition desktop_of (apps : list App) : Desktop :=
  mkDesktop (Ok (Z.of_nat (List.length apps)))
    (fun i => match nth_error apps i with
              | Some app => Ok app
              | None => Raise "IndexError"
              end).

Definition terminal : Accessible :=
  plain "frame" "Terminal" [plain "panel" "" [entry]].

Definition editor : Accessible := plain "Frame" "Editor" [button_ok].

Definition tooltip : Accessible := plain "tool tip" "needle" [].

(** Two applications with a window each, wmctrl not installed. *)
Definition session : World :=
  mkWorld (Ok (desktop_of [app_of [tooltip; editor]; app_of [terminal]]))
    (Raise "[Errno 2] No such file or directory: 'wmctrl'") 100.

(** No application on the bus, one window known to the window manager. *)
Definition bare_session : World :=
  mkWorld (Ok (desktop_of []))
    (Ok "0x03400007  0 host  My App  ") 100.

(** The desktop is there, its application has gone away. *)
Definition stale_session : World :=
  mkWorld (Ok (mkDesktop (Ok 1%Z) (fun _ => Raise "application is defunct")))
    (Ok "0x03400007  0 host  My App  ") 100.

(** No application on the bus, and wmctrl prints a line without a title. *)
Definition untitled_session : World :=
  mkWorld (Ok (desktop_of [])) (Ok "0x03400007  0 host") 100.

(** The dictionaries of the two windows of [session]. *)
Definition editor_dict : WindowDict :=
  mkDict "Frame" "Editor" "Editor" 0 0 0 0
    [mkDict "push button" "OK" "OK" 0 0 0 0 []].

Definition terminal_tree : LinuxUIElement :=
  mkElement "frame" "Terminal" "Terminal" 0 0 0 0
    [mkElement "panel" "" "" 0 0 0 0
       [mkElement "text" "search" "needle" 3 4 50 20 []]].

Definition editor_tree : LinuxUIElement :=
  mkElement "Frame" "Editor" "Editor" 0 0 0 0
    [mkElement "push button" "OK" "OK" 0 0 0 0 []].

(** A screen corner that trips pyautogui's fail-safe: moving the pointer
    raises, everything else returns. *)
Definition failsafe_gui : Gui unit :=
  fun made call =>
    match call with
    | pyautogui_moveTo _ _ _ => Raise "fail-safe triggered"
    | _ => Ok ""
    end.

(** The output of wmctrl for two windows and a line cut short. *)
Definition listing : string :=
  "0x03400007  0 host  My App  " ++ String (ascii_of_nat 10) ""
  ++ "0x03400009" ++ String (ascii_of_nat 10) ""
  ++ "0x0340000b -1 host Terminal".

(** An editor window that answers the walk's [getRoleName()] and raises on
    the constructor's. *)
Definition flaky_session : World :=
  mkWorld
    (Ok (desktop_of
           [mkApp (Ok 1%Z)
              (fun _ => Ok (mkTopLevel (Ok "frame")
                              (mkAccessible (Raise "defunct") (name editor)
                                 (queryText editor) (queryValue editor)
                                 (queryComponent editor) (iter editor))))]))
    (Raise "[Errno 2] No such file or directory: 'wmctrl'") 100.

(** * Properties *)

(** ** Python strings *)

Section Strings.

Lemma lstrip_cases (s : string) :
  PyStr.lstrip s = "" \/
  exists c r, PyStr.lstrip s = String c r /\ PyStr.isspace c = false.
Proof.
  induction s as [|c r IH]; simpl; [now left|].
  destruct (PyStr.isspace c) eqn:Hc; [exact IH|].
  right. now exists c, r.
Qed.

Lemma lstrip_decompose (s : string) :
  exists ws, s = (ws ++ PyStr.lstrip s)%string /\ blank ws = true.
Proof.
  induction s as [|c r (ws & Hs & Hb)]; simpl.
  - now exists "".
  - destruct (PyStr.isspace c) eqn:Hc.
    + exists (String c ws). simpl. split; [congruence|].
      unfold blank in *. simpl. now rewrite Hc, Hb.
    + now exists "".
Qed.

Lemma count_fields_lstrip (s : string) :
  count_fields false s = count_fields false (PyStr.lstrip s).
Proof.
  induction s as [|c r IH]; simpl; [reflexivity|].
  destruct (PyStr.isspace c) eqn:Hc; [exact IH|].
  simpl. now rewrite Hc.
Qed.

Lemma span_word_count (s : string) :
  count_fields true s = count_fields false (snd (PyStr.span_word s)).
Proof.
  induction s as [|c r IH]; simpl; [reflexivity|].
  destruct (PyStr.isspace c) eqn:Hc.
  - simpl. now rewrite Hc.
  - destruct (PyStr.span_word r) as [w rest]. simpl in *. exact IH.
Qed.

Lemma span_word_decompose (s : string) :
  s = (fst (PyStr.span_word s) ++ snd (PyStr.span_word s))%string
  /\ str_forallb (fun c => negb (PyStr.isspace c)) (fst (PyStr.span_word s)) = true
  /\ starts_field (snd (PyStr.span_word s)) = false.
Proof.
  induction s as [|c r (Hs & Hw & Hr)]; simpl; [repeat split|].
  destruct (PyStr.isspace c) eqn:Hc; simpl.
  - rewrite Hc. repeat split.
  - destruct (PyStr.span_word r) as [w rest]. simpl in *.
    rewrite Hc, Hw. simpl. repeat split; congruence.
Qed.

(** [split] yields as many items as the line has fields, at most
    [maxsplit + 1]. *)
Lemma split_length (m : nat) (s : string) :
  List.length (PyStr.split m s) = Nat.min (S m) (fields s).
Proof.
  unfold fields. revert s. induction m as [|m IH]; intros s.
  - simpl. rewrite (count_fields_lstrip s).
    destruct (lstrip_cases s) as [-> | (c & r & -> & Hc)]; simpl; [reflexivity|].
    now rewrite Hc.
  - simpl. rewrite (count_fields_lstrip s).
    destruct (lstrip_cases s) as [-> | (c & r & -> & Hc)]; [reflexivity|].
    cbn [PyStr.span_word count_fields]. rewrite Hc.
    pose proof (span_word_count r) as Hcount.
    destruct (PyStr.span_word r) as [w rest]. simpl in Hcount.
    cbn [List.length]. rewrite IH, Hcount. reflexivity.
Qed.

Lemma starts_field_lstrip (s : string) :
  starts_field s = true -> PyStr.lstrip s = s.
Proof.
  destruct s as [|c r]; simpl; [discriminate|].
  now destruct (PyStr.isspace c).
Qed.

Lemma lstrip_blank_app (ws s : string) :
  blank ws = true -> PyStr.lstrip (ws ++ s) = PyStr.lstrip s.
Proof.
  unfold blank. induction ws as [|c r IH]; simpl; [reflexivity|].
  destruct (PyStr.isspace c); simpl; [exact IH|discriminate].
Qed.

Lemma span_word_field_app (f s : string) :
  str_forallb (fun c => negb (PyStr.isspace c)) f = true ->
  starts_field s = false ->
  PyStr.span_word (f ++ s) = (f, s).
Proof.
  intros Hf Hs. induction f as [|c r IH]; simpl in *.
  - destruct s as [|c r]; simpl in *; [reflexivity|].
    destruct (PyStr.isspace c); [reflexivity|discriminate].
  - destruct (PyStr.isspace c); simpl in *; [discriminate|].
    now rewrite (IH Hf).
Qed.

Lemma is_field_starts (f s : string) :
  is_field f = true -> starts_field (f ++ s) = true.
Proof.
  unfold is_field. destruct f as [|c r]; simpl; [discriminate|].
  destruct (PyStr.isspace c); simpl; [discriminate|reflexivity].
Qed.

Lemma is_separator_starts (ws s : string) :
  is_separator ws = true -> starts_field (ws ++ s) = false.
Proof.
  unfold is_separator, blank. destruct ws as [|c r]; simpl; [discriminate|].
  destruct (PyStr.isspace c); simpl; [reflexivity|discriminate].
Qed.

Lemma blank_separator (ws s : string) :
  blank ws = true -> starts_field (ws ++ s) = false ->
  starts_field s = true -> is_separator ws = true.
Proof.
  unfold is_separator. intros Hb Hn Hs. rewrite Hb.
  destruct ws; simpl in *; [congruence|reflexivity].
Qed.

(** One field taken by [split]: the line is whitespace, the field, and the
    rest the next call splits. *)
Lemma split_S_inv (m : nat) (s w : string) (l : list string) :
  PyStr.split (S m) s = w :: l ->
  exists ws rest,
    s = (ws ++ w ++ rest)%string /\ blank ws = true /\ is_field w = true
    /\ starts_field rest = false /\ l = PyStr.split m rest.
Proof.
  cbn [PyStr.split]. destruct (lstrip_decompose s) as (ws & Hs & Hb).
  destruct (lstrip_cases s) as [E | (c & r & E & Hc)]; rewrite E in *;
    [discriminate|].
  pose proof (span_word_decompose (String c r)) as (Hd & Hw & Hr).
  assert (Hne : PyStr.truthy (fst (PyStr.span_word (String c r))) = true).
  { simpl. rewrite Hc. now destruct (PyStr.span_word r). }
  destruct (PyStr.span_word (String c r)) as [w' rest].
  simpl in Hd, Hw, Hr, Hne. intros H. injection H as <- <-.
  exists ws, rest. rewrite <- Hd. repeat split; try assumption.
  unfold is_field. now rewrite Hw, Hne.
Qed.

Lemma split_0_inv (s t : string) (l : list string) :
  PyStr.split 0 s = t :: l ->
  exists ws, s = (ws ++ t)%string /\ blank ws = true
             /\ starts_field t = true /\ l = [].
Proof.
  cbn [PyStr.split]. destruct (lstrip_decompose s) as (ws & Hs & Hb).
  destruct (lstrip_cases s) as [E | (c & r & E & Hc)]; rewrite E in *;
    [discriminate|].
  intros H. injection H as <- <-. exists ws. simpl. now rewrite Hc.
Qed.

Lemma split_S_field (m : nat) (ws f rest : string) :
  blank ws = true -> is_field f = true -> starts_field rest = false ->
  PyStr.split (S m) (ws ++ f ++ rest) = f :: PyStr.split m rest.
Proof.
  intros Hb Hf Hr. cbn [PyStr.split].
  rewrite (lstrip_blank_app _ _ Hb),
    (starts_field_lstrip _ (is_field_starts f rest Hf)).
  pose proof (is_field_starts f rest Hf) as Hst.
  unfold is_field in Hf. apply andb_true_iff in Hf as [Hne Hf].
  pose proof (span_word_field_app _ _ Hf Hr) as Hsp.
  destruct (f ++ rest)%string eqn:E; [discriminate|].
  now rewrite Hsp.
Qed.

Lemma split_0_rest (ws t : string) :
  blank ws = true -> starts_field t = true ->
  PyStr.split 0 (ws ++ t) = [t].
Proof.
  intros Hb Ht. cbn [PyStr.split].
  rewrite (lstrip_blank_app _ _ Hb), (starts_field_lstrip _ Ht).
  destruct t; [discriminate|reflexivity].
Qed.

Lemma split_3_inv (line f1 f2 f3 rest : string) :
  PyStr.split 3 line = [f1; f2; f3; rest] -> cut_in_four line f1 f2 f3 rest.
Proof.
  intros H.
  apply split_S_inv in H as (ws0 & r1 & -> & Hb0 & Hf1 & Hr1 & H).
  symmetry in H.
  apply split_S_inv in H as (ws1 & r2 & -> & Hb1 & Hf2 & Hr2 & H).
  symmetry in H.
  apply split_S_inv in H as (ws2 & r3 & -> & Hb2 & Hf3 & Hr3 & H).
  symmetry in H.
  apply split_0_inv in H as (ws3 & -> & Hb3 & Hrest & _).
  exists ws0, ws1, ws2, ws3. repeat split; try assumption.
  - eapply blank_separator; eauto using is_field_starts.
  - eapply blank_separator; eauto using is_field_starts.
  - eapply blank_separator; eauto.
Qed.

Lemma split_3_cut (line f1 f2 f3 rest : string) :
  cut_in_four line f1 f2 f3 rest -> PyStr.split 3 line = [f1; f2; f3; rest].
Proof.
  intros (ws0 & ws1 & ws2 & ws3 & -> & Hb0 & Hf1 & Hs1 & Hf2 & Hs2 & Hf3
          & Hs3 & Hrest).
  pose proof Hs1 as Hb1. pose proof Hs2 as Hb2. pose proof Hs3 as Hb3.
  unfold is_separator in Hb1, Hb2, Hb3.
  apply andb_true_iff in Hb1 as [_ Hb1].
  apply andb_true_iff in Hb2 as [_ Hb2].
  apply andb_true_iff in Hb3 as [_ Hb3].
  rewrite (split_S_field 2 ws0 f1 _ Hb0 Hf1 (is_separator_starts _ _ Hs1)).
  rewrite (split_S_field 1 ws1 f2 _ Hb1 Hf2 (is_separator_starts _ _ Hs2)).
  rewrite (split_S_field 0 ws2 f3 _ Hb2 Hf3 (is_separator_starts _ _ Hs3)).
  now rewrite (split_0_rest ws3 rest Hb3 Hrest).
Qed.

Lemma prefix_app (q b : string) : prefix q (q ++ b) = true.
Proof.
  induction q as [|c r IH]; simpl; [now destruct b|].
  destruct (ascii_dec c c); [exact IH|congruence].
Qed.

Lemma prefix_split (q s : string) :
  prefix q s = true -> exists b, s = (q ++ b)%string.
Proof.
  revert s. induction q as [|c r IH]; intros s H; simpl in *.
  - now exists s.
  - destruct s as [|c' s']; simpl in H; [discriminate|].
    destruct (ascii_dec c c') as [<-|]; [|discriminate].
    destruct (IH _ H) as [b ->]. now exists b.
Qed.

Lemma str_in_unfold (q s : string) :
  PyStr.str_in q s =
    if prefix q s then true
    else match s with
         | EmptyString => false
         | String _ r => PyStr.str_in q r
         end.
Proof. destruct s; reflexivity. Qed.

(** [q in s] holds exactly when [s] is some text, [q], and some text. *)
Lemma str_in_spec (q s : string) :
  PyStr.str_in q s = true <-> exists a b, s = (a ++ q ++ b)%string.
Proof.
  split.
  - induction s as [|c r IH]; rewrite str_in_unfold;
      destruct (prefix q _) eqn:Hp; intros H.
    + apply prefix_split in Hp as [b Hb]. now exists "", b.
    + discriminate.
    + apply prefix_split in Hp as [b Hb]. now exists "", b.
    + destruct (IH H) as (a & b & ->). now exists (String c a), b.
  - intros (a & b & ->). induction a as [|c a IH].
    + simpl. rewrite str_in_unfold, prefix_app. reflexivity.
    + rewrite str_in_unfold. cbn [append]. rewrite IH.
      now destruct (prefix q _).
Qed.

Lemma rstrip_decompose (s : string) :
  exists ws, s = (PyStr.rstrip s ++ ws)%string /\ blank ws = true.
Proof.
  unfold blank. induction s as [|c r (ws & Hs & Hb)]; simpl.
  - now exists "".
  - destruct (PyStr.rstrip r) as [|c' r'] eqn:E.
    + simpl in Hs. subst r. destruct (PyStr.isspace c) eqn:Hc.
      * exists (String c ws). simpl. now rewrite Hc, Hb.
      * now exists ws.
    + exists ws. split; [|assumption].
      cbn [append]. f_equal. exact Hs.
Qed.

Lemma rstrip_ends (s : string) :
  PyStr.rstrip s = "" \/ ends_field (PyStr.rstrip s) = true.
Proof.
  induction s as [|c r IH]; simpl; [now left|].
  destruct (PyStr.rstrip r) as [|c' r'] eqn:E.
  - destruct (PyStr.isspace c) eqn:Hc; [now left|right]. simpl. now rewrite Hc.
  - right. destruct IH as [IH|IH]; [discriminate|exact IH].
Qed.

(** The stripped rest of a line that starts a field: the rest without its
    trailing whitespace. *)
Lemma strip_rest (rest : string) :
  starts_field rest = true ->
  ends_field (PyStr.strip rest) = true
  /\ exists ws, rest = (PyStr.strip rest ++ ws)%string /\ blank ws = true.
Proof.
  intros Hs. unfold PyStr.strip. rewrite (starts_field_lstrip _ Hs).
  split; [|apply rstrip_decompose].
  destruct (rstrip_ends rest) as [E|E]; [|exact E].
  destruct (rstrip_decompose rest) as (ws & Hr & Hb). rewrite E in Hr.
  simpl in Hr. subst ws. destruct rest as [|c r]; [discriminate|].
  unfold blank in Hb. simpl in Hs, Hb.
  destruct (PyStr.isspace c); discriminate.
Qed.

End Strings.


(** ** Node construction *)

Lemma LinuxUIElement_init_inv (depth : nat) (a : Accessible) (e : LinuxUIElement) :
  LinuxUIElement_init depth a = Ok e ->
  exists d, depth = S d /\
    role e = init_role (at_depth d a) /\ title e = init_title (at_depth d a) /\
    value e = init_value (at_depth d a) (init_title (at_depth d a)) /\
    (x e, y e, width e, height e) = init_geometry (at_depth d a) /\
    children e = init_children (LinuxUIElement_init d) (at_depth d a).
Proof.
  destruct depth as [|d]; cbn [LinuxUIElement_init]; [discriminate|].
  destruct (init_geometry (at_depth d a)) as [[[gx gy] gw] gh] eqn:Hg.
  intros H. injection H as <-. exists d. simpl. now rewrite Hg.
Qed.

Lemma LinuxUIElement_init_S (d : nat) (a : Accessible) :
  exists e, LinuxUIElement_init (S d) a = Ok e.
Proof.
  cbn [LinuxUIElement_init].
  destruct (init_geometry (at_depth d a)) as [[[gx gy] gw] gh].
  eexists. reflexivity.
Qed.

(** With one call left the constructor returns a node of defaults. *)
Lemma LinuxUIElement_init_1 (a : Accessible) :
  LinuxUIElement_init 1 a = Ok (mkElement "" "" "" 0 0 0 0 []).
Proof. reflexivity. Qed.

Lemma init_title_cases (a : Accessible) :
  init_title a = match name a with Ok (Some n) => n | _ => "" end.
Proof.
  unfold init_title. destruct (name a) as [[n|]|]; reflexivity.
Qed.

Lemma init_value_cases (a : Accessible) (t : string) :
  init_value a t =
    match text_availability a with
    | Content s => s
    | NoHandle => ""
    | Unavailable =>
        match value_availability a with
        | Content s => s
        | NoHandle => ""
        | Unavailable => t
        end
    end.
Proof.
  unfold init_value, try_text, try_value, text_availability, value_availability.
  destruct (queryText a) as [[tx|]|]; simpl; try reflexivity.
  - destruct (getText tx) as [s|]; simpl; [reflexivity|].
    destruct (queryValue a) as [[v|]|]; simpl; try reflexivity.
    destruct (currentValue v); reflexivity.
  - destruct (queryValue a) as [[v|]|]; simpl; try reflexivity.
    destruct (currentValue v); reflexivity.
Qed.

Lemma init_value_priority (a : Accessible) :
  text_availability a <> NoHandle -> value_availability a <> NoHandle ->
  init_value a (init_title a) = value_by_priority a.
Proof.
  intros Ht Hv. rewrite init_value_cases, init_title_cases.
  unfold value_by_priority.
  destruct (text_availability a); try reflexivity; try congruence.
  destruct (value_availability a); try reflexivity; congruence.
Qed.

Lemma append_children_built (ctor : Accessible -> Res LinuxUIElement)
    (items : list (Res Accessible)) (acc : list LinuxUIElement) :
  append_children ctor items acc = acc ++ built ctor (yielded items).
Proof.
  revert acc. induction items as [|[child|e] rest IH]; intros acc; simpl.
  - now rewrite app_nil_r.
  - destruct (ctor child) as [child_elem|]; rewrite IH; simpl.
    + now rewrite <- app_assoc.
    + reflexivity.
  - now rewrite app_nil_r.
Qed.

Lemma yielded_app_Ok (l : list Accessible) (items : list (Res Accessible)) :
  yielded (map Ok l ++ items) = l ++ yielded items.
Proof. induction l; simpl; congruence. Qed.

Lemma built_app (ctor : Accessible -> Res LinuxUIElement) (l1 l2 : list Accessible) :
  built ctor (l1 ++ l2) = built ctor l1 ++ built ctor l2.
Proof. unfold built. apply flat_map_app. Qed.

Lemma built_init_0 (l : list Accessible) : built (LinuxUIElement_init 0) l = [].
Proof. induction l as [|c l IH]; [reflexivity|exact IH]. Qed.

(** C7: the value of a constructed node follows the priority chain: the
    text of the text interface if it is available; else the current value
    of the scalar-value interface if it is available; else the node's
    title, which is empty when the name is unavailable. An interface is
    unavailable when its query or the read on it raises, as pyatspi's
    queries do (they return a handle or raise, which is what the two
    hypotheses on the handles say). A node built with a single call left,
    where every read raises, has the empty value. *)
Theorem value_resolution (d : nat) (a : Accessible) (e : LinuxUIElement) :
  LinuxUIElement_init (S (S d)) a = Ok e ->
  text_availability a <> NoHandle -> value_availability a <> NoHandle ->
  value e = value_by_priority a
  /\ (forall s, text_availability a = Content s -> value e = s)
  /\ (forall s, text_availability a = Unavailable ->
                value_availability a = Content s -> value e = s)
  /\ (text_availability a = Unavailable ->
      value_availability a = Unavailable ->
      value e = title e
      /\ title e = match name a with Ok (Some n) => n | _ => "" end)
  /\ LinuxUIElement_init 1 a = Ok (mkElement "" "" "" 0 0 0 0 []).
Proof.
  intros H Ht Hv. apply LinuxUIElement_init_inv in H.
  destruct H as (k & Hk & _ & Htitle & Hvalue & _). injection Hk as <-.
  cbn [at_depth] in *. rewrite Hvalue, Htitle, (init_value_priority a Ht Hv).
  split; [reflexivity|]. unfold value_by_priority.
  split; [|split; [|split]].
  - now intros s ->.
  - now intros s -> ->.
  - intros -> ->. split; [symmetry|]; apply init_title_cases.
  - reflexivity.
Qed.

Lemma value_resolution_witness :
  value (mkElement "text" "search" "needle" 3 4 50 20 []) = "needle".
Proof.
  destruct (value_resolution 0 entry
              (mkElement "text" "search" "needle" 3 4 50 20 []) eq_refl)
    as (_ & H & _).
  - discriminate.
  - discriminate.
  - apply H. reflexivity.
Defined.

(** C5, the claim as stated fails: when the position is read and the read of
    the size raises, the node keeps the position, so the bounding box is not
    all zero. *)
Lemma geometry_all_zero_counterexample :
  ~ (forall d a e, LinuxUIElement_init d a = Ok e ->
                   geometry_read_fails a = true ->
                   (x e, y e, width e, height e) = (0, 0, 0, 0)%Z).
Proof.
  intros H.
  specialize (H 2 panel_without_size _ eq_refl eq_refl).
  vm_compute in H. discriminate.
Qed.

(** C5 (amended): each attribute of a constructed node is what its own
    read gives, whatever the other reads do: the role is the role name read,
    the title is the name read, and both are empty when their read raises
    (the title also when the name is [None]); the value follows its chain
    (text, else scalar value, else title); the bounding box is the position
    and size read, all zero when the component query raises or returns no
    handle or the position read raises, and when the position is read and
    the size read raises, [x] and [y] are the position and width and height
    are zero. So two objects that agree on one read give nodes that agree
    on that attribute. A node built with a single call left, where every
    read raises, has all the defaults. *)
Theorem attribute_isolation (d d' : nat) (a a' : Accessible)
    (e e' : LinuxUIElement) :
  LinuxUIElement_init (S (S d)) a = Ok e ->
  LinuxUIElement_init (S (S d')) a' = Ok e' ->
  role e = match getRoleName a with Ok r => r | Raise _ => "" end
  /\ title e = match name a with Ok (Some n) => n | _ => "" end
  /\ (text_availability a <> NoHandle -> value_availability a <> NoHandle ->
      value e = value_by_priority a)
  /\ (x e, y e, width e, height e) =
       match queryComponent a with
       | Ok (Some comp) =>
           match getPosition comp, getSize comp with
           | Ok (px, py), Ok (w, h) => (px, py, w, h)
           | Ok (px, py), Raise _ => (px, py, 0, 0)
           | Raise _, _ => (0, 0, 0, 0)
           end
       | _ => (0, 0, 0, 0)
       end%Z
  /\ (getRoleName a = getRoleName a' -> role e = role e')
  /\ (name a = name a' -> title e = title e')
  /\ (queryText a = queryText a' -> queryValue a = queryValue a' ->
      title e = title e' -> value e = value e')
  /\ (queryComponent a = queryComponent a' ->
      (x e, y e, width e, height e) = (x e', y e', width e', height e'))
  /\ LinuxUIElement_init 1 a = Ok (mkElement "" "" "" 0 0 0 0 []).
Proof.
  intros H H'.
  apply LinuxUIElement_init_inv in H. destruct H as (k & Hk & Hr & Ht & Hv & Hg & _).
  apply LinuxUIElement_init_inv in H'. destruct H' as (k' & Hk' & Hr' & Ht' & Hv' & Hg' & _).
  injection Hk as <-. injection Hk' as <-. cbn [at_depth] in *.
  rewrite Hr, Hr', Ht, Ht', Hv, Hv', Hg, Hg'.
  repeat match goal with |- _ /\ _ => split end.
  - unfold init_role. now destruct (getRoleName a).
  - apply init_title_cases.
  - apply init_value_priority.
  - unfold init_geometry. destruct (queryComponent a) as [[comp|]|]; reflexivity.
  - unfold init_role. now intros ->.
  - unfold init_title. now intros ->.
  - unfold init_value, try_text, try_value. intros -> -> Heq.
    rewrite Heq. reflexivity.
  - unfold init_geometry. now intros ->.
  - reflexivity.
Qed.

Lemma attribute_isolation_witness :
  role (mkElement "" "" "needle" 3 4 50 20 []) = ""
  /\ title (mkElement "" "" "needle" 3 4 50 20 []) = ""
  /\ value (mkElement "" "" "needle" 3 4 50 20 []) = "needle"
  /\ (x (mkElement "" "" "needle" 3 4 50 20 []),
      y (mkElement "" "" "needle" 3 4 50 20 []),
      width (mkElement "" "" "needle" 3 4 50 20 []),
      height (mkElement "" "" "needle" 3 4 50 20 []))
     = (x (mkElement "text" "search" "needle" 3 4 50 20 []),
        y (mkElement "text" "search" "needle" 3 4 50 20 []),
        width (mkElement "text" "search" "needle" 3 4 50 20 []),
        height (mkElement "text" "search" "needle" 3 4 50 20 [])).
Proof.
  destruct (attribute_isolation 0 0 entry_unnamed entry
              (mkElement "" "" "needle" 3 4 50 20 [])
              (mkElement "text" "search" "needle" 3 4 50 20 [])
              eq_refl eq_refl)
    as (Hr & Ht & Hv & _ & _ & _ & _ & Hg & _).
  split; [exact Hr|]. split; [exact Ht|]. split; [|exact (Hg eq_refl)].
  apply Hv; discriminate.
Defined.

(** C6: in the loop over a node's children a child whose constructor raises
    is left out and nothing else changes: the children built so far stay,
    in order, and the later ones are built and appended as if the failed
    child were not there; the children of a node are exactly the ones built
    from the items the iteration produced before it raised, and the node is
    returned (with no children) when the iteration raises at once. *)
Theorem failed_child_omitted :
  (forall ctor items acc,
      append_children ctor items acc = acc ++ built ctor (yielded items))
  /\ (forall ctor before child after acc,
         raises (ctor child) = true ->
         append_children ctor (map Ok before ++ Ok child :: after) acc
         = append_children ctor (map Ok before ++ after) acc)
  /\ (forall d a,
         exists e, LinuxUIElement_init (S d) a = Ok e
           /\ children e =
                match iter a with
                | Ok items => built (LinuxUIElement_init d) (yielded items)
                | Raise _ => []
                end).
Proof.
  split; [exact append_children_built|]. split.
  - intros ctor before child after acc Hc.
    rewrite !append_children_built, !yielded_app_Ok. simpl.
    rewrite !built_app. simpl.
    destruct (ctor child); [discriminate|reflexivity].
  - intros d a. destruct (LinuxUIElement_init_S d a) as [e He].
    exists e. split; [exact He|].
    apply LinuxUIElement_init_inv in He.
    destruct He as (k & Hk & _ & _ & _ & _ & Hc).
    injection Hk as <-. rewrite Hc. unfold init_children.
    destruct d as [|d]; cbn [at_depth out_of_depth iter].
    + destruct (iter a); [now rewrite built_init_0|reflexivity].
    + destruct (iter a); [apply append_children_built|reflexivity].
Qed.

Lemma failed_child_omitted_witness :
  append_children picky_ctor
    (map Ok [button_ok] ++ Ok entry_unnamed :: [Ok button_cancel]) []
  = append_children picky_ctor (map Ok [button_ok] ++ [Ok button_cancel]) [].
Proof.
  destruct failed_child_omitted as (_ & H & _).
  apply (H picky_ctor [button_ok] entry_unnamed [Ok button_cancel] []).
  reflexivity.
Defined.

(** ** The walk over the desktop *)

Section Walk.

Variable depth : nat.

Lemma trees_cons (window : TopLevel) (l : list TopLevel) :
  trees depth (window :: l) =
    (if is_toplevel_role (window_role window)
     then match LinuxUIElement_init depth (tl_object window) with
          | Ok ui_elem => [ui_elem]
          | Raise _ => []
          end
     else []) ++ trees depth l.
Proof.
  unfold trees, toplevel, built. cbn [filter].
  destruct (is_toplevel_role (window_role window)); reflexivity.
Qed.

Lemma trees_app (l1 l2 : list TopLevel) :
  trees depth (l1 ++ l2) = trees depth l1 ++ trees depth l2.
Proof. unfold trees, toplevel. now rewrite filter_app, map_app, built_app. Qed.

Lemma get_windows_app_enumeration (app : App) (js : list nat)
    (windows : list WindowDict) :
  get_windows_app depth app js windows =
    match app_windows app js with
    | (ws, None) => Ok (windows ++ map to_dict (trees depth ws))
    | (_, Some e) => Raise e
    end.
Proof.
  revert windows. induction js as [|j js IH]; intros windows;
    cbn [get_windows_app app_windows].
  - unfold trees. simpl. now rewrite app_nil_r.
  - destruct (app_getChildAtIndex app j) as [window|e]; cbn [bind];
      [|reflexivity].
    assert (Hstep : forall acc,
      get_windows_app depth app js acc =
        match (let (ws, fault) := app_windows app js in (window :: ws, fault))
        with
        | (ws, None) => Ok (acc ++ map to_dict (trees depth (tl ws)))
        | (_, Some e) => Raise e
        end).
    { intros acc. rewrite IH. now destruct (app_windows app js) as [ws [e|]]. }
    destruct (is_toplevel_role (window_role window)) eqn:Hrole;
      [destruct (LinuxUIElement_init depth (tl_object window))
         as [ui_elem|e] eqn:Hinit|];
      rewrite Hstep; destruct (app_windows app js) as [ws [e'|]];
      try reflexivity; cbn [tl]; rewrite trees_cons, Hrole; try rewrite Hinit;
      simpl; now rewrite <- ?app_assoc.
Qed.

Lemma get_windows_desktop_enumeration (desktop : Desktop) (ixs : list nat)
    (windows : list WindowDict) :
  get_windows_desktop depth desktop ixs windows =
    match desktop_windows desktop ixs with
    | (ws, None) => Ok (windows ++ map to_dict (trees depth ws))
    | (_, Some e) => Raise e
    end.
Proof.
  revert windows. induction ixs as [|i ixs IH]; intros windows;
    cbn [get_windows_desktop desktop_windows].
  - unfold trees. simpl. now rewrite app_nil_r.
  - destruct (desktop_getChildAtIndex desktop i) as [app|e]; cbn [bind];
      [|reflexivity].
    destruct (app_childCount app) as [n|e]; cbn [bind]; [|reflexivity].
    rewrite get_windows_app_enumeration.
    destruct (app_windows app (range n)) as [ws [e|]]; cbn [bind];
      [reflexivity|].
    rewrite IH. destruct (desktop_windows desktop ixs) as [ws' [e|]];
      [reflexivity|].
    now rewrite trees_app, map_app, app_assoc.
Qed.

End Walk.

(** The AT-SPI walk of [get_windows] raises when an enumeration call does,
    and otherwise returns the dictionaries of the trees built from the
    window-like children, in the order of the enumeration. *)
Lemma get_windows_atspi_enumeration (w : World) :
  get_windows_atspi w =
    match snd (enumeration w) with
    | None => Ok (map to_dict (window_trees w))
    | Some e => Raise e
    end.
Proof.
  unfold get_windows_atspi, window_trees, enumeration.
  destruct (getDesktop w) as [desktop|e]; cbn [bind]; [|reflexivity].
  destruct (desktop_childCount desktop) as [n|e]; cbn [bind]; [|reflexivity].
  rewrite get_windows_desktop_enumeration.
  now destruct (desktop_windows desktop (range n)) as [ws [e|]].
Qed.

Lemma get_windows_atspi_empty (w : World) :
  get_windows_atspi w = Ok [] <->
  snd (enumeration w) = None /\ window_trees w = [].
Proof.
  rewrite get_windows_atspi_enumeration.
  destruct (snd (enumeration w)) as [e|].
  - split; [discriminate|intros [H _]; discriminate].
  - split.
    + intros H. injection H as H. split; [reflexivity|].
      now apply map_eq_nil in H.
    + intros [_ ->]. reflexivity.
Qed.

(** ** get_windows *)

(** C1, the claim as stated fails: with the desktop root obtained, an
    application that has gone away makes [get_windows] report failure. *)
Lemma failure_only_without_root_counterexample :
  ~ (forall w, success (fst (get_windows w)) = false <->
               raises (getDesktop w) = true).
Proof.
  intros H. destruct (H stale_session) as [H1 _].
  specialize (H1 eq_refl). discriminate.
Qed.

(** C1 (amended): [get_windows] reports failure exactly when the desktop
    root cannot be obtained or a later enumeration call of the walk raises
    ([childCount] or [getChildAtIndex], on the desktop or on an
    application), and then with the message of that exception; a role that
    cannot be read and a tree that cannot be built never make it fail. *)
Theorem get_windows_failure (w : World) :
  (success (fst (get_windows w)) = false <-> snd (enumeration w) <> None)
  /\ (forall e, snd (enumeration w) = Some e ->
                get_windows w = (Error e, [CallGetDesktop]))
  /\ (forall e, getDesktop w = Raise e -> snd (enumeration w) = Some e).
Proof.
  unfold get_windows. rewrite get_windows_atspi_enumeration.
  split; [|split].
  - destruct (snd (enumeration w)) as [e|]; simpl.
    + split; [discriminate|reflexivity].
    + destruct (map to_dict (window_trees w)); simpl;
        (split; [discriminate|congruence]).
  - intros e ->. reflexivity.
  - intros e H. unfold enumeration. now rewrite H.
Qed.

Lemma get_windows_failure_witness :
  success (fst (get_windows stale_session)) = false
  /\ get_windows stale_session
     = (Error "application is defunct", [CallGetDesktop]).
Proof.
  destruct (get_windows_failure stale_session) as ([_ H1] & H2 & _).
  split; [apply H1; discriminate|apply H2; reflexivity].
Defined.

(** C2, the claim as stated fails for [find_window_by_value]: on a desktop
    without applications the walk finds no window and wmctrl is not run. *)
Lemma fallback_trigger_counterexample :
  ~ (forall value w,
        In CallWmctrl (snd (find_window_by_value value w)) <->
        get_windows_atspi w = Ok []).
Proof.
  intros H. destruct (H (Some "My App") bare_session) as [_ H2].
  specialize (H2 eq_refl). simpl in H2.
  destruct H2 as [H2|[]]. discriminate.
Qed.

Lemma get_windows_calls (w : World) :
  snd (get_windows w) =
    match get_windows_atspi w with
    | Ok [] => [CallGetDesktop; CallWmctrl]
    | _ => [CallGetDesktop]
    end.
Proof.
  unfold get_windows.
  now destruct (get_windows_atspi w) as [[|d l]|e].
Qed.

Lemma find_window_by_title_calls (title : string) (w : World) :
  snd (find_window_by_title title w) = snd (get_windows w).
Proof.
  unfold find_window_by_title. destruct (get_windows w) as [result calls].
  destruct (negb (success result)); [reflexivity|].
  now destruct (find _ _).
Qed.

Lemma find_window_by_role_calls (role : string) (w : World) :
  snd (find_window_by_role role w) = snd (get_windows w).
Proof.
  unfold find_window_by_role. destruct (get_windows w) as [result calls].
  destruct (negb (success result)); [reflexivity|].
  now destruct (filter _ _).
Qed.

(** C2 (amended): [get_windows], [find_window_by_title] and
    [find_window_by_role] first ask for the desktop and then run wmctrl
    exactly when the AT-SPI walk completes (no enumeration call raises) and
    gives no window; they run nothing after a walk that raises or that gives
    a window. [find_window_by_value] walks the desktop itself and never runs
    wmctrl. *)
Theorem fallback_trigger :
  (forall w,
      (In CallWmctrl (snd (get_windows w)) <->
       snd (enumeration w) = None /\ window_trees w = [])
      /\ (snd (get_windows w) = [CallGetDesktop]
          \/ snd (get_windows w) = [CallGetDesktop; CallWmctrl]))
  /\ (forall title w, snd (find_window_by_title title w) = snd (get_windows w))
  /\ (forall role w, snd (find_window_by_role role w) = snd (get_windows w))
  /\ (forall value w, snd (find_window_by_value value w) = [CallGetDesktop]).
Proof.
  split; [|split; [|split]].
  - intros w. rewrite <- get_windows_atspi_empty, get_windows_calls.
    destruct (get_windows_atspi w) as [[|d l]|e]; simpl.
    + split; [split; auto|now right].
    + split; [split; [intros [H|[]]|]; discriminate|now left].
    + split; [split; [intros [H|[]]|]; discriminate|now left].
  - exact find_window_by_title_calls.
  - exact find_window_by_role_calls.
  - reflexivity.
Qed.

Lemma fallback_trigger_witness :
  In CallWmctrl (snd (get_windows bare_session))
  /\ ~ In CallWmctrl (snd (find_window_by_value (Some "My App") bare_session)).
Proof.
  destruct fallback_trigger as (H1 & _ & _ & H4).
  split.
  - apply (H1 bare_session). split; reflexivity.
  - rewrite H4. intros [H|[]]. discriminate.
Defined.

Lemma get_windows_wmctrl_unusable (lines : list string) :
  Forall (fun line => fields line < 4) lines ->
  forall windows, get_windows_wmctrl lines windows = windows.
Proof.
  induction 1 as [|line lines Hline _ IH]; intros windows;
    cbn [get_windows_wmctrl]; [reflexivity|].
  pose proof (split_length 3 line) as Hlen.
  destruct (Nat.leb_spec 4 (List.length (PyStr.split 3 line))); [lia|].
  apply IH.
Qed.

(** C3: when the AT-SPI walk completes without a window and wmctrl cannot be
    run, exits with failure, or prints no line with four fields,
    [get_windows] returns success with an empty list of windows. *)
Theorem get_windows_fallback_exhausted (w : World) :
  get_windows_atspi w = Ok [] ->
  (raises (wmctrl w) = true
   \/ exists wm_output, wmctrl w = Ok wm_output
        /\ Forall (fun line => fields line < 4) (PyStr.splitlines wm_output)) ->
  get_windows w = (Windows [], [CallGetDesktop; CallWmctrl])
  /\ success (fst (get_windows w)) = true.
Proof.
  intros Hwalk Hwm.
  assert (get_windows w = (Windows [], [CallGetDesktop; CallWmctrl])) as ->.
  { unfold get_windows, get_windows_fallback. rewrite Hwalk.
    destruct Hwm as [Hr | (wm_output & -> & Hlines)].
    - destruct (wmctrl w); [discriminate|reflexivity].
    - now rewrite get_windows_wmctrl_unusable. }
  split; reflexivity.
Qed.

Lemma get_windows_fallback_exhausted_witness :
  get_windows untitled_session = (Windows [], [CallGetDesktop; CallWmctrl])
  /\ success (fst (get_windows untitled_session)) = true.
Proof.
  apply (get_windows_fallback_exhausted untitled_session).
  - reflexivity.
  - right. exists "0x03400007  0 host". split; [reflexivity|].
    repeat constructor.
Defined.

(** ** The wmctrl listing *)

Lemma get_windows_wmctrl_lines (lines : list string) (windows : list WindowDict) :
  get_windows_wmctrl lines windows = windows ++ flat_map line_windows lines.
Proof.
  revert windows. induction lines as [|line lines IH]; intros windows;
    cbn [get_windows_wmctrl flat_map]; [now rewrite app_nil_r|].
  unfold line_windows. pose proof (split_length 3 line) as Hlen.
  destruct (PyStr.split 3 line) as [|f1 [|f2 [|f3 [|rest [|x l]]]]];
    cbn [List.length Nat.leb] in *; rewrite ?IH; try reflexivity.
  - now rewrite <- app_assoc.
  - lia.
Qed.

Lemma line_windows_few_fields (line : string) :
  fields line < 4 -> line_windows line = [].
Proof.
  intros H. unfold line_windows. pose proof (split_length 3 line) as Hlen.
  destruct (PyStr.split 3 line) as [|f1 [|f2 [|f3 [|rest [|x l]]]]];
    try reflexivity; cbn [List.length] in Hlen; lia.
Qed.

(** C8: every window of the wmctrl listing has role "window", an empty
    value, a zero bounding box and no children, and comes from a line of the
    output made of three fields, their separators, and a rest that starts a
    fourth field: its title is that rest without the whitespace at its end.
    A line with fewer than four fields adds nothing, and a line with four
    adds its window, after the windows of the lines before it. *)
Theorem wmctrl_stubs :
  (forall w d, In d (get_windows_fallback w) ->
     d_role d = "window" /\ d_value d = ""
     /\ (d_x d, d_y d, d_width d, d_height d) = (0, 0, 0, 0)%Z
     /\ d_children d = []
     /\ exists wm_output line f1 f2 f3 rest ws,
          wmctrl w = Ok wm_output /\ In line (PyStr.splitlines wm_output)
          /\ cut_in_four line f1 f2 f3 rest
          /\ d_title d = PyStr.strip rest
          /\ rest = (d_title d ++ ws)%string /\ blank ws = true
          /\ ends_field (d_title d) = true)
  /\ (forall line before after windows,
         fields line < 4 ->
         get_windows_wmctrl (before ++ line :: after) windows
         = get_windows_wmctrl (before ++ after) windows)
  /\ (forall line f1 f2 f3 rest before after,
         cut_in_four line f1 f2 f3 rest ->
         get_windows_wmctrl (before ++ line :: after) []
         = get_windows_wmctrl before []
           ++ mkDict "window" (PyStr.strip rest) "" 0 0 0 0 []
           :: get_windows_wmctrl after []).
Proof.
  split; [|split].
  - intros w d. unfold get_windows_fallback.
    destruct (wmctrl w) as [wm_output|e]; [|intros []].
    rewrite get_windows_wmctrl_lines. simpl.
    intros Hin. apply in_flat_map in Hin as (line & Hline & Hd).
    unfold line_windows in Hd.
    destruct (PyStr.split 3 line) as [|f1 [|f2 [|f3 [|rest [|x l]]]]] eqn:E;
      try contradiction.
    destruct Hd as [<-|[]]. apply split_3_inv in E.
    repeat (split; [reflexivity|]).
    assert (Hs : starts_field rest = true).
    { destruct E as (? & ? & ? & ? & ? & ? & ? & ? & ? & ? & ? & ? & H).
      exact H. }
    destruct (strip_rest rest Hs) as (Hends & ws & Hrest & Hblank).
    exists wm_output, line, f1, f2, f3, rest, ws. simpl.
    repeat split; assumption.
  - intros line before after windows Hf.
    rewrite !get_windows_wmctrl_lines, !flat_map_app. simpl.
    now rewrite (line_windows_few_fields line Hf).
  - intros line f1 f2 f3 rest before after Hcut.
    rewrite !get_windows_wmctrl_lines, !flat_map_app. simpl.
    unfold line_windows at 2. now rewrite (split_3_cut _ _ _ _ _ Hcut).
Qed.

Lemma wmctrl_stubs_witness :
  d_role (mkDict "window" "My App" "" 0 0 0 0 []) = "window"
  /\ get_windows_wmctrl (["0x01 0 host"] ++ "0x02 -1 host" :: ["id"]) []
     = get_windows_wmctrl (["0x01 0 host"] ++ ["id"]) []
  /\ get_windows_wmctrl
       (["id"] ++ "0x03400007  0 host  My App  " :: []) []
     = get_windows_wmctrl ["id"] []
       ++ mkDict "window" (PyStr.strip "My App  ") "" 0 0 0 0 []
       :: get_windows_wmctrl [] [].
Proof.
  destruct wmctrl_stubs as (H1 & H2 & H3).
  split; [|split].
  - apply (H1 bare_session). simpl. left. reflexivity.
  - apply H2. vm_compute. lia.
  - apply (H3 _ "0x03400007" "0" "host" "My App  ").
    exists "", "  ", " ", "  ". repeat split.
Defined.

(** ** The searches *)

Lemma find_first {A : Type} (p : A -> bool) (before : list A) (a : A)
    (after : list A) :
  (forall b, In b before -> p b = false) -> p a = true ->
  find p (before ++ a :: after) = Some a.
Proof.
  intros Hb Ha. induction before as [|b before IH]; simpl.
  - now rewrite Ha.
  - rewrite (Hb b (or_introl eq_refl)). apply IH.
    intros b' Hin. apply Hb. now right.
Qed.

Lemma find_nobody {A : Type} (p : A -> bool) (l : list A) :
  (forall a, In a l -> p a = false) -> find p l = None.
Proof.
  intros H. induction l as [|a l IH]; simpl; [reflexivity|].
  rewrite (H a (or_introl eq_refl)). apply IH.
  intros b Hin. apply H. now right.
Qed.

Lemma find_app_first {A : Type} (p : A -> bool) (l1 l2 : list A) :
  find p (l1 ++ l2) =
    match find p l1 with Some a => Some a | None => find p l2 end.
Proof.
  induction l1 as [|a l1 IH]; simpl; [reflexivity|].
  now destruct (p a).
Qed.

(** C9: over the windows [get_windows] returns, [find_window_by_title]
    returns the first one, in their order, whose lower-cased title contains
    the lower-cased query; when no title contains it, the result is a
    failure whose message contains the query. *)
Theorem find_window_by_title_first (title : string) (w : World)
    (windows : list WindowDict) :
  fst (get_windows w) = Windows windows ->
  (forall before win after,
      windows = before ++ win :: after ->
      (forall b, In b before -> title_contains title b = false) ->
      title_contains title win = true ->
      fst (find_window_by_title title w) = Window win)
  /\ ((forall win, In win windows -> title_contains title win = false) ->
      fst (find_window_by_title title w)
      = Error ("No window with title containing '" ++ title ++ "' found")
      /\ PyStr.str_in title
           ("No window with title containing '" ++ title ++ "' found") = true)
  /\ (forall win,
         title_contains title win = true <->
         exists a b,
           PyStr.lower (d_title win) = (a ++ PyStr.lower title ++ b)%string).
Proof.
  intros Hget. unfold find_window_by_title.
  destruct (get_windows w) as [result calls]. simpl in Hget. subst result.
  cbn [success negb get_windows_key]. fold (title_contains title).
  split; [|split].
  - intros before win after -> Hb Hw. now rewrite (find_first _ _ _ _ Hb Hw).
  - intros Hnone. rewrite (find_nobody _ _ Hnone). split; [reflexivity|].
    apply str_in_spec. now eexists; eexists.
  - intros win. apply str_in_spec.
Qed.

Lemma find_window_by_title_first_witness :
  fst (find_window_by_title "term" session) = Window (to_dict terminal_tree).
Proof.
  destruct (find_window_by_title_first "term" session
              [editor_dict; to_dict terminal_tree] eq_refl) as (H & _ & _).
  apply (H [editor_dict] (to_dict terminal_tree) []);
    [reflexivity| |reflexivity].
  intros b [<-|[]]. reflexivity.
Defined.

Lemma str_in_empty_text (q s : string) :
  PyStr.str_in q "" = true -> PyStr.str_in q s = true.
Proof.
  destruct q; [|discriminate]. intros _. rewrite str_in_unfold.
  now destruct s.
Qed.

Lemma truthy_eqb (s : string) : PyStr.truthy s = negb (s =? "").
Proof. now destruct s. Qed.

Lemma contains_value_None (e : LinuxUIElement) : contains_value e None = false.
Proof. now destruct e. Qed.

Lemma contains_value_Some (e : LinuxUIElement) (q : string) :
  contains_value e (Some q) =
    matches_self e q
    || existsb (fun child => contains_value child (Some q)) (children e).
Proof. destruct e. simpl. now destruct (matches_self _ q). Qed.

Lemma find_window_by_value_app_None (depth : nat) (app : App) (js : list nat) :
  forall d, find_window_by_value_app depth app js None <> Ok (Some d).
Proof.
  intros d. induction js as [|j js IH]; cbn [find_window_by_value_app];
    [discriminate|].
  destruct (app_getChildAtIndex app j) as [window|e]; cbn [bind];
    [|discriminate].
  destruct (is_toplevel_role (window_role window)); [|exact IH].
  destruct (LinuxUIElement_init depth (tl_object window)) as [ui_elem|e];
    cbn [bind]; [|discriminate].
  now rewrite contains_value_None.
Qed.

Lemma find_window_by_value_desktop_None (depth : nat) (desktop : Desktop)
    (ixs : list nat) :
  forall d, find_window_by_value_desktop depth desktop ixs None <> Ok (Some d).
Proof.
  intros d. induction ixs as [|i ixs IH]; cbn [find_window_by_value_desktop];
    [discriminate|].
  destruct (desktop_getChildAtIndex desktop i) as [app|e]; cbn [bind];
    [|discriminate].
  destruct (app_childCount app) as [n|e]; cbn [bind]; [|discriminate].
  pose proof (find_window_by_value_app_None depth app (range n)) as Happ.
  destruct (find_window_by_value_app depth app (range n) None)
    as [[d'|]|e]; cbn [bind]; [|exact IH|discriminate].
  now destruct (Happ d').
Qed.

Lemma existsb_flat_map {A B : Type} (p : B -> bool) (f : A -> list B)
    (l : list A) :
  existsb p (flat_map f l) = existsb (fun a => existsb p (f a)) l.
Proof.
  induction l as [|a l IH]; simpl; [reflexivity|].
  now rewrite existsb_app, IH.
Qed.

(** [contains_value] tests the nodes of the tree in pre-order. *)
Lemma contains_value_preorder (q : string) (e : LinuxUIElement) :
  contains_value e (Some q) = existsb (fun n => matches_self n q) (preorder e).
Proof.
  induction e as [r t v px py w h cs IH] using LinuxUIElement_tree_ind.
  rewrite contains_value_Some. cbn [preorder existsb children]. f_equal.
  rewrite existsb_flat_map.
  induction IH as [|c cs Hc _ IHcs]; simpl; [reflexivity|].
  now rewrite Hc, IHcs.
Qed.

Section ValueWalk.

Variable d : nat.
Variable value : option string.

Lemma find_window_by_value_app_enumeration (app : App) (js : list nat) :
  find_window_by_value_app (S d) app js value =
    match hit (S d) value (fst (app_windows app js)) with
    | Some e => Ok (Some (to_dict e))
    | None =>
        match snd (app_windows app js) with
        | Some e => Raise e
        | None => Ok None
        end
    end.
Proof.
  unfold hit. induction js as [|j js IH];
    cbn [find_window_by_value_app app_windows]; [reflexivity|].
  destruct (app_getChildAtIndex app j) as [window|e]; cbn [bind];
    [|reflexivity].
  destruct (app_windows app js) as [ws fault]. cbn [fst snd] in *.
  rewrite trees_cons.
  destruct (is_toplevel_role (window_role window)); [|exact IH].
  destruct (LinuxUIElement_init_S d (tl_object window)) as [ui_elem ->].
  cbn [bind].
  cbn [List.app find]. destruct (contains_value ui_elem value); [reflexivity|].
  exact IH.
Qed.

Lemma find_window_by_value_desktop_enumeration (desktop : Desktop)
    (ixs : list nat) :
  find_window_by_value_desktop (S d) desktop ixs value =
    match hit (S d) value (fst (desktop_windows desktop ixs)) with
    | Some e => Ok (Some (to_dict e))
    | None =>
        match snd (desktop_windows desktop ixs) with
        | Some e => Raise e
        | None => Ok None
        end
    end.
Proof.
  unfold hit. induction ixs as [|i ixs IH];
    cbn [find_window_by_value_desktop desktop_windows]; [reflexivity|].
  destruct (desktop_getChildAtIndex desktop i) as [app|e]; cbn [bind];
    [|reflexivity].
  destruct (app_childCount app) as [n|e]; cbn [bind]; [|reflexivity].
  rewrite find_window_by_value_app_enumeration. unfold hit.
  destruct (app_windows app (range n)) as [ws [e|]]; cbn [fst snd].
  - destruct (find _ (trees _ ws)); reflexivity.
  - destruct (desktop_windows desktop ixs) as [ws' fault]. cbn [fst snd] in *.
    rewrite trees_app, find_app_first.
    destruct (find _ (trees _ ws)); cbn [bind]; [reflexivity|].
    exact IH.
Qed.

End ValueWalk.

(** With a constructor call left, [find_window_by_value] returns the
    dictionary of the first tree of the walk that contains the value; if none
    does, the exception of the enumeration call that raised, if any, and the
    "not found" failure otherwise. *)
Lemma find_window_by_value_enumeration (value : option string) (w : World)
    (d : nat) :
  call_depth w = S d ->
  fst (find_window_by_value value w) =
    match find (fun e => contains_value e value) (window_trees w) with
    | Some e => Window (to_dict e)
    | None =>
        match snd (enumeration w) with
        | Some e => Error e
        | None =>
            Error ("No window with value '" ++ PyStr.str value ++ "' found")
        end
    end.
Proof.
  intros Hd. unfold find_window_by_value, window_trees, enumeration.
  rewrite Hd. cbn [fst].
  destruct (getDesktop w) as [desktop|e]; cbn [bind]; [|reflexivity].
  destruct (desktop_childCount desktop) as [n|e]; cbn [bind]; [|reflexivity].
  rewrite find_window_by_value_desktop_enumeration. unfold hit.
  destruct (find _ _); [reflexivity|].
  now destruct (snd (desktop_windows desktop (range n))).
Qed.

Lemma matches_self_node_matches (e : LinuxUIElement) (q : string) :
  matches_self e q = node_matches q e.
Proof.
  unfold matches_self, node_matches. rewrite !truthy_eqb.
  destruct (value e) as [|c v] eqn:Ev; destruct (title e) as [|c' t] eqn:Et;
    cbn [String.eqb negb andb orb]; try reflexivity.
  - cbn [PyStr.lower].
    destruct (PyStr.str_in (PyStr.lower q) "") eqn:E; [|reflexivity].
    now rewrite (str_in_empty_text _ _ E).
  - destruct (PyStr.str_in _ (PyStr.lower (String c v))) eqn:E1;
      [reflexivity|]. cbn [PyStr.lower orb].
    destruct (PyStr.str_in (PyStr.lower q) "") eqn:E; [|reflexivity].
    exfalso. apply (str_in_empty_text _ (PyStr.lower (String c v))) in E.
    congruence.
Qed.

(** [contains_value] tells whether some node of the tree matches. *)
Lemma contains_value_nodes (q : string) (e : LinuxUIElement) :
  contains_value e (Some q) = existsb (node_matches q) (preorder e).
Proof.
  rewrite contains_value_preorder.
  induction (preorder e) as [|n l IH]; [reflexivity|].
  cbn [existsb]. now rewrite IH, matches_self_node_matches.
Qed.

Lemma contains_value_no_node (q : string) (t : LinuxUIElement) :
  (forall n, In n (preorder t) -> node_matches q n = false) ->
  contains_value t (Some q) = false.
Proof.
  intros Ht. rewrite contains_value_nodes. apply not_true_is_false.
  intros E. apply existsb_exists in E as (n & Hn & Hm).
  rewrite (Ht n Hn) in Hm. discriminate.
Qed.

Lemma contains_value_some_node (q : string) (t : LinuxUIElement) :
  contains_value t (Some q) = true <->
  exists n, In n (preorder t) /\ node_matches q n = true.
Proof. rewrite contains_value_nodes. apply existsb_exists. Qed.

Lemma from_dict_to_dict (e : LinuxUIElement) : from_dict (to_dict e) = e.
Proof.
  induction e as [r t v px py w h cs IH] using LinuxUIElement_tree_ind.
  cbn [to_dict from_dict]. f_equal.
  induction IH as [|c cs Hc _ IHcs]; [reflexivity|].
  cbn [map]. now rewrite Hc, IHcs.
Qed.

(** C10: in [find_window_by_value] a node matches when the query is
    contained, without regard to case, in its value or in its title:
    [contains_value] tells whether some node of the tree matches, and, with
    a constructor call left, the search succeeds exactly when some node of
    some tree of the walk matches. A node whose value and title are both
    empty matches no query, so a tree of such nodes contains none; [None] is
    contained in no tree, and [find_window_by_value(None)] always reports
    failure. *)
Theorem value_matching :
  (forall e q,
      contains_value e (Some q) = existsb (node_matches q) (preorder e))
  /\ (forall q w d, call_depth w = S d ->
        (success (fst (find_window_by_value (Some q) w)) = true <->
         exists t n, In t (window_trees w) /\ In n (preorder t)
                     /\ node_matches q n = true))
  /\ (forall e,
         (forall n, In n (preorder e) -> value n = "" /\ title n = "") ->
         forall q, contains_value e (Some q) = false)
  /\ (forall e, contains_value e None = false)
  /\ (forall w, success (fst (find_window_by_value None w)) = false).
Proof.
  split; [intros e q; apply contains_value_nodes|].
  split; [|split; [|split]].
  - intros q w d Hd. rewrite (find_window_by_value_enumeration (Some q) w d Hd).
    destruct (find _ (window_trees w)) as [t|] eqn:E.
    + split; [intros _|reflexivity]. apply find_some in E as [Hin Hc].
      apply contains_value_some_node in Hc as (n & Hn & Hm). now exists t, n.
    + split.
      * destruct (snd (enumeration w)); discriminate.
      * intros (t & n & Ht & Hn & Hm).
        assert (Hc : contains_value t (Some q) = true)
          by (apply contains_value_some_node; now exists n).
        rewrite (find_none _ _ E t Ht) in Hc. discriminate.
  - intros e Hall q. apply contains_value_no_node. intros n Hn.
    destruct (Hall n Hn) as [Hv Ht]. unfold node_matches.
    now rewrite Hv, Ht.
  - exact contains_value_None.
  - intros w. unfold find_window_by_value. cbn [fst].
    destruct (getDesktop w) as [desktop|e]; cbn [bind]; [|reflexivity].
    destruct (desktop_childCount desktop) as [n|e]; cbn [bind]; [|reflexivity].
    pose proof (find_window_by_value_desktop_None (call_depth w) desktop
                  (range n)) as H.
    destruct (find_window_by_value_desktop _ desktop (range n) None)
      as [[d|]|e]; [now destruct (H d)|reflexivity|reflexivity].
Qed.

Lemma value_matching_witness :
  success (fst (find_window_by_value (Some "NEEDLE") session)) = true
  /\ contains_value (mkElement "filler" "" "" 0 0 0 0 []) (Some "") = false.
Proof.
  destruct value_matching as (_ & H2 & H3 & _).
  split.
  - apply (H2 "NEEDLE" session 99 eq_refl).
    exists terminal_tree, (mkElement "text" "search" "needle" 3 4 50 20 []).
    split; [right; left; reflexivity|]. split; [|reflexivity].
    simpl. auto.
  - apply H3. intros n [<-|[]]. split; reflexivity.
Defined.

(** C4, the claim as stated fails in its last part: when an enumeration
    call of the walk raises and no node matched before, the failure carries
    the message of that exception, which does not name the value. *)
Lemma not_found_message_counterexample :
  ~ (forall q w d,
        call_depth w = S d ->
        (forall t n, In t (window_trees w) -> In n (preorder t) ->
                     node_matches q n = false) ->
        exists msg, fst (find_window_by_value (Some q) w) = Error msg
                    /\ PyStr.str_in q msg = true).
Proof.
  intros H.
  destruct (H "My App" stale_session 99 eq_refl) as (msg & Hmsg & Hin).
  - intros t n [].
  - vm_compute in Hmsg. injection Hmsg as <-. vm_compute in Hin.
    discriminate.
Qed.

(** C4 (amended): [contains_value] tests a node's own value and title, then
    its children in order, each the same way, so it tells whether some node
    of the tree, taken in pre-order, matches; [find_window_by_value] returns
    the dictionary of the whole tree of the first top-level window, in the
    order of the enumeration, in which some node matches (the tree can be
    read back from it, root and all descendants), never a descendant alone.
    When no node of any tree matches, it returns a failure: with a message
    that contains the value when the enumeration completes, and with the
    message of the exception when an enumeration call raises. *)
Theorem find_window_by_value_first (q : string) (w : World) (d : nat) :
  call_depth w = S d ->
  (forall e,
      contains_value e (Some q) = existsb (node_matches q) (preorder e))
  /\ (forall before win after,
         window_trees w = before ++ win :: after ->
         (forall b n, In b before -> In n (preorder b) ->
                      node_matches q n = false) ->
         (exists n, In n (preorder win) /\ node_matches q n = true) ->
         exists dict,
           fst (find_window_by_value (Some q) w) = Window dict
           /\ from_dict dict = win)
  /\ ((forall t n, In t (window_trees w) -> In n (preorder t) ->
                   node_matches q n = false) ->
      (snd (enumeration w) = None ->
       fst (find_window_by_value (Some q) w)
       = Error ("No window with value '" ++ q ++ "' found")
       /\ PyStr.str_in q ("No window with value '" ++ q ++ "' found") = true)
      /\ (forall e, snd (enumeration w) = Some e ->
                    fst (find_window_by_value (Some q) w) = Error e)).
Proof.
  intros Hd. split; [exact (contains_value_nodes q)|].
  rewrite (find_window_by_value_enumeration (Some q) w d Hd).
  split.
  - intros before win after -> Hb Hm.
    rewrite (find_first _ before win after).
    + exists (to_dict win). split; [reflexivity|apply from_dict_to_dict].
    + intros b Hin. apply contains_value_no_node. intros n' Hn'.
      now apply (Hb b).
    + now apply contains_value_some_node.
  - intros Hnone. rewrite find_nobody.
    + split.
      * intros ->. split; [reflexivity|]. apply str_in_spec.
        now eexists; eexists.
      * now intros e ->.
    + intros t Ht. apply contains_value_no_node. intros n Hn.
      now apply (Hnone t).
Qed.

Lemma find_window_by_value_first_witness :
  exists dict,
    fst (find_window_by_value (Some "NEEDLE") session) = Window dict
    /\ from_dict dict = terminal_tree.
Proof.
  destruct (find_window_by_value_first "NEEDLE" session 99 eq_refl)
    as (_ & H & _).
  apply (H [editor_tree] terminal_tree []).
  - reflexivity.
  - intros b n [<-|[]] [<-|[<-|[]]]; reflexivity.
  - exists (mkElement "text" "search" "needle" 3 4 50 20 []).
    split; [|reflexivity]. simpl. auto.
Defined.

(** ** The handler on the sample sessions *)

Example get_windows_session :
  get_windows session
  = (Windows [editor_dict; to_dict terminal_tree], [CallGetDesktop]).
Proof. reflexivity. Qed.

Example get_windows_bare_session :
  get_windows bare_session
  = (Windows [mkDict "window" "My App" "" 0 0 0 0 []],
     [CallGetDesktop; CallWmctrl]).
Proof. reflexivity. Qed.

Example find_window_by_role_session :
  fst (find_window_by_role "FRAME" session)
  = Windows [editor_dict; to_dict terminal_tree].
Proof. reflexivity. Qed.

Example find_window_by_role_dialog :
  fst (find_window_by_role "dialog" session)
  = Error "No windows with role 'dialog' found".
Proof. reflexivity. Qed.

Example find_window_by_value_None_session :
  fst (find_window_by_value None session)
  = Error "No window with value 'None' found".
Proof. reflexivity. Qed.

Example find_window_by_value_stale_session :
  fst (find_window_by_value (Some "My App") stale_session)
  = Error "application is defunct".
Proof. reflexivity. Qed.

(** * Further properties of the handler *)

(** ** Roles of the windows *)

Lemma built_In (ctor : Accessible -> Res LinuxUIElement) (l : list Accessible)
    (e : LinuxUIElement) :
  In e (built ctor l) <-> exists a, In a l /\ ctor a = Ok e.
Proof.
  unfold built. rewrite in_flat_map. split; intros (a & Ha & H); exists a;
    (split; [exact Ha|]).
  - destruct (ctor a) as [e'|]; [|contradiction].
    destruct H as [<-|[]]. reflexivity.
  - rewrite H. now left.
Qed.

Lemma to_dict_role (e : LinuxUIElement) : d_role (to_dict e) = role e.
Proof. now destruct e. Qed.

Lemma to_dict_title (e : LinuxUIElement) : d_title (to_dict e) = title e.
Proof. now destruct e. Qed.

Lemma window_trees_role (w : World) (d : nat) (e : LinuxUIElement) :
  call_depth w = S (S d) -> stable_roles w ->
  In e (window_trees w) -> is_toplevel_role (PyStr.lower (role e)) = true.
Proof.
  unfold window_trees, trees, toplevel. intros -> Hstable H.
  apply built_In in H as (a & Ha & Hinit).
  apply in_map_iff in Ha as (c & <- & Hc).
  apply filter_In in Hc as [Hc Hrole]. specialize (Hstable c Hc).
  apply LinuxUIElement_init_inv in Hinit as (k & Hk & -> & _).
  injection Hk as <-. cbn [at_depth].
  unfold window_role, init_role in *. rewrite Hstable.
  destruct (tl_getRoleName c); [exact Hrole|discriminate].
Qed.

Lemma get_windows_wmctrl_role (lines : list string) (d : WindowDict) :
  In d (get_windows_wmctrl lines []) -> d_role d = "window".
Proof.
  rewrite get_windows_wmctrl_lines. simpl. intros H.
  apply in_flat_map in H as (line & _ & H). unfold line_windows in H.
  destruct (PyStr.split 3 line) as [|f1 [|f2 [|f3 [|rest [|c l]]]]];
    try contradiction.
  now destruct H as [<-|[]].
Qed.

Lemma get_windows_cases (w : World) :
  match snd (enumeration w) with
  | Some e => get_windows w = (Error e, [CallGetDesktop])
  | None =>
      match window_trees w with
      | [] =>
          get_windows w
          = (Windows (get_windows_fallback w), [CallGetDesktop; CallWmctrl])
      | _ =>
          get_windows w
          = (Windows (map to_dict (window_trees w)), [CallGetDesktop])
      end
  end.
Proof.
  unfold get_windows. rewrite get_windows_atspi_enumeration.
  destruct (snd (enumeration w)); [reflexivity|].
  now destruct (window_trees w).
Qed.

Lemma get_windows_roles (w : World) (k : nat) (d : WindowDict) :
  call_depth w = S (S k) -> stable_roles w ->
  In d (get_windows_key (fst (get_windows w))) ->
  is_toplevel_role (PyStr.lower (d_role d)) = true.
Proof.
  intros Hk Hstable. pose proof (get_windows_cases w) as Hc.
  destruct (snd (enumeration w)); [rewrite Hc; intros []|].
  destruct (window_trees w) as [|t ts] eqn:Et; rewrite Hc; cbn [fst get_windows_key].
  - unfold get_windows_fallback. destruct (wmctrl w); [|intros []].
    intros H. apply get_windows_wmctrl_role in H. now rewrite H.
  - rewrite <- Et. intros H. apply in_map_iff in H as (e & <- & He).
    rewrite to_dict_role. now apply (window_trees_role w k).
Qed.

(** X1: when every window of the walk answers the constructor's
    [getRoleName()] as it answered the walk's, and the constructor has the
    calls it needs, the windows [get_windows] returns, whatever path
    produced them, have a role that is, in lower case, "frame", "window" or
    "dialog". *)
Theorem get_windows_only_window_roles (w : World) (k : nat)
    (windows : list WindowDict) :
  call_depth w = S (S k) -> stable_roles w ->
  fst (get_windows w) = Windows windows ->
  forall d, In d windows ->
    PyStr.lower (d_role d) = "frame" \/ PyStr.lower (d_role d) = "window"
    \/ PyStr.lower (d_role d) = "dialog".
Proof.
  intros Hk Hstable Hget d Hd.
  pose proof (get_windows_roles w k d Hk Hstable) as H.
  rewrite Hget in H. specialize (H Hd). unfold is_toplevel_role in H.
  cbn [existsb] in H. rewrite !orb_true_iff in H.
  destruct H as [H|[H|[H|H]]]; try discriminate;
    apply String.eqb_eq in H; auto.
Qed.

Lemma session_stable_roles : stable_roles session.
Proof.
  intros c Hc. vm_compute in Hc.
  destruct Hc as [<-|[<-|[<-|[]]]]; reflexivity.
Qed.

Lemma get_windows_only_window_roles_witness :
  PyStr.lower (d_role editor_dict) = "frame"
  \/ PyStr.lower (d_role editor_dict) = "window"
  \/ PyStr.lower (d_role editor_dict) = "dialog".
Proof.
  apply (get_windows_only_window_roles session 98
           [editor_dict; to_dict terminal_tree] eq_refl session_stable_roles
           eq_refl).
  now left.
Defined.

(** X3: under the same two conditions, a query of [find_window_by_role]
    that is not "frame", "window" or "dialog" up to case never succeeds,
    whatever is on the screen. *)
Theorem find_window_by_role_other_roles (role : string) (w : World)
    (k : nat) :
  call_depth w = S (S k) -> stable_roles w ->
  is_toplevel_role (PyStr.lower role) = false ->
  success (fst (find_window_by_role role w)) = false.
Proof.
  intros Hk Hstable Hrole. unfold find_window_by_role.
  pose proof (get_windows_roles w k) as Hroles.
  destruct (get_windows w) as [result calls]. cbn [fst] in *.
  destruct result as [windows|win|e]; cbn [success negb get_windows_key] in *;
    try reflexivity.
  assert (filter (fun win => PyStr.lower (d_role win) =? PyStr.lower role)
            windows = []) as ->; [|reflexivity].
  induction windows as [|d l IH]; [reflexivity|]. cbn [filter].
  destruct (PyStr.lower (d_role d) =? PyStr.lower role) eqn:E.
  - apply String.eqb_eq in E. rewrite <- E in Hrole.
    rewrite (Hroles d Hk Hstable (or_introl eq_refl)) in Hrole. discriminate.
  - apply IH. intros d' Hk' Hs' Hd'. apply Hroles; [assumption..|]. now right.
Qed.

Lemma find_window_by_role_other_roles_witness :
  success (fst (find_window_by_role "push button" session)) = false.
Proof.
  apply (find_window_by_role_other_roles "push button" session 98).
  - reflexivity.
  - exact session_stable_roles.
  - reflexivity.
Defined.

(** Without the first condition the two fail: a window whose role cannot
    be read the second time is listed with an empty role. *)
Example get_windows_flaky_session :
  fst (get_windows flaky_session)
  = Windows [mkDict "" "Editor" "Editor" 0 0 0 0
               [mkDict "push button" "OK" "OK" 0 0 0 0 []]]
  /\ success (fst (find_window_by_role "" flaky_session)) = true.
Proof. split; reflexivity. Qed.

(** X4: the windows of [get_windows] come from one source only: when the
    walk completes and builds at least one tree they are the dictionaries of
    those trees, in the order of the enumeration, and wmctrl is not run;
    only when it builds none are they the windows of the wmctrl listing. *)
Theorem get_windows_one_source (w : World) :
  snd (enumeration w) = None ->
  (window_trees w <> [] ->
   get_windows w = (Windows (map to_dict (window_trees w)), [CallGetDesktop]))
  /\ (window_trees w = [] ->
      get_windows w
      = (Windows (get_windows_fallback w), [CallGetDesktop; CallWmctrl])).
Proof.
  intros Hf. pose proof (get_windows_cases w) as Hc. rewrite Hf in Hc.
  split.
  - intros Hne. destruct (window_trees w); [congruence|exact Hc].
  - intros He. now rewrite He in Hc.
Qed.

Lemma get_windows_one_source_witness :
  get_windows session
  = (Windows (map to_dict (window_trees session)), [CallGetDesktop]).
Proof.
  destruct (get_windows_one_source session eq_refl) as [H _].
  apply H. discriminate.
Defined.

(** ** Serialization *)

(** X5: [to_dict] loses nothing: two trees with the same dictionary are the
    same tree. *)
Theorem to_dict_injective (e e' : LinuxUIElement) :
  to_dict e = to_dict e' -> e = e'.
Proof.
  revert e'.
  induction e as [r t v px py w h cs IH] using LinuxUIElement_tree_ind.
  intros [r' t' v' px' py' w' h' cs'] H. simpl in H.
  injection H as -> -> -> -> -> -> -> Hcs. f_equal.
  revert cs' Hcs. induction IH as [|c cs Hc _ IHcs]; intros [|c' cs'] Hcs;
    simpl in Hcs; try discriminate; [reflexivity|].
  injection Hcs as Hhd Htl. f_equal; [now apply Hc|now apply IHcs].
Qed.

Lemma to_dict_injective_witness : terminal_tree = terminal_tree.
Proof. apply to_dict_injective. reflexivity. Defined.

(** ** Queries in lower case, empty queries *)

Lemma lower_char_idempotent (c : ascii) :
  PyStr.lower_char (PyStr.lower_char c) = PyStr.lower_char c.
Proof.
  destruct c as [[] [] [] [] [] [] [] []]; reflexivity.
Qed.

Lemma lower_idempotent (s : string) : PyStr.lower (PyStr.lower s) = PyStr.lower s.
Proof.
  induction s as [|c r IH]; simpl; [reflexivity|].
  now rewrite lower_char_idempotent, IH.
Qed.

Lemma lower_empty (s : string) : PyStr.lower s = "" -> s = "".
Proof. now destruct s. Qed.

Lemma str_in_empty_query (s : string) : PyStr.str_in "" s = true.
Proof. rewrite str_in_unfold. now destruct s. Qed.

Lemma str_in_of_empty (q : string) : PyStr.str_in q "" = true -> q = "".
Proof. now destruct q. Qed.

Lemma matches_self_lower (e : LinuxUIElement) (q q' : string) :
  PyStr.lower q = PyStr.lower q' -> matches_self e q = matches_self e q'.
Proof. unfold matches_self. now intros ->. Qed.

Lemma contains_value_lower (q q' : string) (e : LinuxUIElement) :
  PyStr.lower q = PyStr.lower q' ->
  contains_value e (Some q) = contains_value e (Some q').
Proof.
  intros H. rewrite !contains_value_preorder.
  induction (preorder e) as [|n l IH]; simpl; [reflexivity|].
  now rewrite IH, (matches_self_lower n q q' H).
Qed.

Lemma find_window_by_value_app_ext (depth : nat) (app : App) (js : list nat)
    (v v' : option string) :
  (forall e, contains_value e v = contains_value e v') ->
  find_window_by_value_app depth app js v
  = find_window_by_value_app depth app js v'.
Proof.
  intros H. induction js as [|j js IH]; cbn [find_window_by_value_app];
    [reflexivity|].
  destruct (app_getChildAtIndex app j) as [window|e]; cbn [bind];
    [|reflexivity].
  destruct (is_toplevel_role (window_role window)); [|exact IH].
  destruct (LinuxUIElement_init depth (tl_object window)) as [ui_elem|e];
    cbn [bind]; [|reflexivity].
  now rewrite H, IH.
Qed.

Lemma find_window_by_value_desktop_ext (depth : nat) (desktop : Desktop)
    (ixs : list nat) (v v' : option string) :
  (forall e, contains_value e v = contains_value e v') ->
  find_window_by_value_desktop depth desktop ixs v
  = find_window_by_value_desktop depth desktop ixs v'.
Proof.
  intros H. induction ixs as [|i ixs IH]; cbn [find_window_by_value_desktop];
    [reflexivity|].
  destruct (desktop_getChildAtIndex desktop i) as [app|e]; cbn [bind];
    [|reflexivity].
  destruct (app_childCount app) as [n|e]; cbn [bind]; [|reflexivity].
  now rewrite (find_window_by_value_app_ext _ _ _ v v' H), IH.
Qed.

(** X6: the searches see the query in lower case only: two queries that
    agree in lower case (a query and its lower-cased form, for one) find the
    same window by title and by value, and select the same windows by
    role. *)
Theorem queries_up_to_case (q q' : string) (w : World) :
  PyStr.lower q = PyStr.lower q' ->
  (forall win, fst (find_window_by_title q w) = Window win <->
               fst (find_window_by_title q' w) = Window win)
  /\ (forall win, fst (find_window_by_value (Some q) w) = Window win <->
                  fst (find_window_by_value (Some q') w) = Window win)
  /\ (forall wins, fst (find_window_by_role q w) = Windows wins <->
                   fst (find_window_by_role q' w) = Windows wins)
  /\ PyStr.lower (PyStr.lower q) = PyStr.lower q.
Proof.
  intros H. split; [|split; [|split]].
  - intros win. unfold find_window_by_title.
    destruct (get_windows w) as [result calls]. rewrite H.
    destruct (negb (success result)); [reflexivity|].
    destruct (find _ _); cbn [fst]; [reflexivity|].
    split; discriminate.
  - intros win. unfold find_window_by_value. cbn [fst].
    destruct (getDesktop w) as [desktop|e]; cbn [bind]; [|reflexivity].
    destruct (desktop_childCount desktop) as [n|e]; cbn [bind]; [|reflexivity].
    rewrite (find_window_by_value_desktop_ext _ _ _ (Some q) (Some q')
               (fun e => contains_value_lower q q' e H)).
    destruct (find_window_by_value_desktop _ _ _ _) as [[d|]|e];
      try reflexivity. split; discriminate.
  - intros wins. unfold find_window_by_role.
    destruct (get_windows w) as [result calls]. rewrite H.
    destruct (negb (success result)); [reflexivity|].
    destruct (filter _ _); cbn [fst]; [|reflexivity].
    split; discriminate.
  - apply lower_idempotent.
Qed.

Lemma queries_up_to_case_witness :
  fst (find_window_by_title "term" session) = Window (to_dict terminal_tree).
Proof.
  destruct (queries_up_to_case "TERM" "term" session eq_refl) as (H & _).
  apply H. reflexivity.
Defined.

(** X7: with the empty string as query, [find_window_by_title] returns the
    first window of [get_windows], whatever its title, and fails only when
    there is no window at all. *)
Theorem find_window_by_title_empty_query (w : World) :
  (forall win rest,
      fst (get_windows w) = Windows (win :: rest) ->
      fst (find_window_by_title "" w) = Window win)
  /\ (fst (get_windows w) = Windows [] ->
      fst (find_window_by_title "" w)
      = Error "No window with title containing '' found").
Proof.
  unfold find_window_by_title. destruct (get_windows w) as [result calls].
  cbn [fst]. split.
  - intros win rest ->. cbn [success negb get_windows_key find PyStr.lower].
    now rewrite str_in_empty_query.
  - intros ->. reflexivity.
Qed.

Lemma find_window_by_title_empty_query_witness :
  fst (find_window_by_title "" session) = Window editor_dict.
Proof.
  destruct (find_window_by_title_empty_query session) as [H _].
  apply (H editor_dict [to_dict terminal_tree]). reflexivity.
Defined.

(** X8: with the empty string as query, [contains_value] tells whether some
    node of the tree has a value or a title that is not empty; a tree of
    nodes without text contains no query at all. *)
Theorem contains_value_empty_query (e : LinuxUIElement) :
  contains_value e (Some "")
  = existsb (fun n => PyStr.truthy (value n) || PyStr.truthy (title n))
      (preorder e)
  /\ (contains_value e (Some "") = false ->
      forall v, contains_value e v = false).
Proof.
  assert (Hm : forall n, matches_self n ""
                         = PyStr.truthy (value n) || PyStr.truthy (title n)).
  { intros n. unfold matches_self. cbn [PyStr.lower].
    now rewrite !str_in_empty_query, !andb_true_r. }
  split.
  - rewrite contains_value_preorder.
    induction (preorder e) as [|n l IH]; [reflexivity|].
    cbn [existsb]. now rewrite Hm, IH.
  - intros H [q|]; [|apply contains_value_None].
    rewrite contains_value_preorder in *.
    induction (preorder e) as [|n l IH]; [reflexivity|].
    cbn [existsb] in *. apply orb_false_iff in H as [Hn Hl].
    rewrite (IH Hl), orb_false_r. rewrite Hm in Hn.
    apply orb_false_iff in Hn as [Hv Ht]. unfold matches_self.
    now rewrite Hv, Ht.
Qed.

Lemma contains_value_empty_query_witness :
  contains_value (mkElement "filler" "" "" 0 0 0 0 []) (Some "needle") = false.
Proof.
  destruct (contains_value_empty_query (mkElement "filler" "" "" 0 0 0 0 []))
    as [_ H].
  apply H. reflexivity.
Defined.

(** ** The searches against each other *)

Lemma find_exists {A : Type} (p : A -> bool) (l : list A) (a : A) :
  In a l -> p a = true -> exists b, find p l = Some b.
Proof.
  intros Ha Hp. destruct (find p l) as [b|] eqn:E; [now exists b|].
  rewrite (find_none p l E a Ha) in Hp. discriminate.
Qed.

Lemma find_window_by_value_app_depth0 (app : App) (js : list nat)
    (v : option string) (d : WindowDict) :
  find_window_by_value_app 0 app js v <> Ok (Some d).
Proof.
  induction js as [|j js IH]; cbn [find_window_by_value_app]; [discriminate|].
  destruct (app_getChildAtIndex app j) as [window|e]; cbn [bind];
    [|discriminate].
  destruct (is_toplevel_role (window_role window)); [discriminate|exact IH].
Qed.

Lemma find_window_by_value_desktop_depth0 (desktop : Desktop) (ixs : list nat)
    (v : option string) (d : WindowDict) :
  find_window_by_value_desktop 0 desktop ixs v <> Ok (Some d).
Proof.
  induction ixs as [|i ixs IH]; cbn [find_window_by_value_desktop];
    [discriminate|].
  destruct (desktop_getChildAtIndex desktop i) as [app|e]; cbn [bind];
    [|discriminate].
  destruct (app_childCount app) as [n|e]; cbn [bind]; [|discriminate].
  pose proof (find_window_by_value_app_depth0 app (range n) v) as Happ.
  destruct (find_window_by_value_app 0 app (range n) v) as [[d'|]|e];
    cbn [bind]; [|exact IH|discriminate].
  intros H. injection H as ->. now apply (Happ d).
Qed.

Lemma find_window_by_value_result (v : option string) (w : World)
    (win : WindowDict) :
  fst (find_window_by_value v w) = Window win ->
  exists t, In t (window_trees w) /\ win = to_dict t
            /\ contains_value t v = true.
Proof.
  destruct (call_depth w) as [|d] eqn:Hd.
  - unfold find_window_by_value. rewrite Hd. cbn [fst].
    destruct (getDesktop w) as [desktop|e]; cbn [bind]; [|discriminate].
    destruct (desktop_childCount desktop) as [n|e]; cbn [bind]; [|discriminate].
    pose proof (find_window_by_value_desktop_depth0 desktop (range n) v) as H0.
    destruct (find_window_by_value_desktop 0 desktop (range n) v)
      as [[d|]|e]; try discriminate.
    now destruct (H0 d).
  - rewrite (find_window_by_value_enumeration v w d Hd).
    destruct (find _ (window_trees w)) as [t|] eqn:E.
    + intros H. injection H as <-. apply find_some in E as [Hin Hc].
      now exists t.
    + destruct (snd (enumeration w)); discriminate.
Qed.

(** X9: a window returned by [find_window_by_value] is the dictionary of a
    tree built by the walk, and that tree contains the value; so the value
    search never returns a window of the wmctrl listing, and it fails
    whenever the walk builds no tree. *)
Theorem find_window_by_value_sound (v : option string) (w : World)
    (win : WindowDict) :
  fst (find_window_by_value v w) = Window win ->
  exists t, In t (window_trees w) /\ win = to_dict t
            /\ contains_value t v = true.
Proof. exact (find_window_by_value_result v w win). Qed.

Lemma find_window_by_value_sound_witness :
  exists t, In t (window_trees session) /\ to_dict terminal_tree = to_dict t
            /\ contains_value t (Some "needle") = true.
Proof.
  apply (find_window_by_value_sound (Some "needle") session). reflexivity.
Defined.

(** X10: when [find_window_by_title] finds a window of the AT-SPI walk for a
    query that is not empty, [find_window_by_value] with the same query
    succeeds too (the window's title is text of its own root node). *)
Theorem title_hit_is_value_hit (q : string) (w : World) (d : nat)
    (win : WindowDict) :
  call_depth w = S d -> window_trees w <> [] -> q <> "" ->
  fst (find_window_by_title q w) = Window win ->
  In win (map to_dict (window_trees w))
  /\ exists win', fst (find_window_by_value (Some q) w) = Window win'.
Proof.
  intros Hd Hne Hq. unfold find_window_by_title.
  pose proof (get_windows_cases w) as Hc.
  destruct (snd (enumeration w)) as [e|] eqn:Hf; [now rewrite Hc|].
  destruct (window_trees w) as [|t0 ts] eqn:Et; [congruence|]. rewrite Hc.
  cbn [success negb get_windows_key]. rewrite <- Et in *.
  destruct (find _ _) as [found|] eqn:E; cbn [fst]; [|discriminate].
  intros H. injection H as ->. apply find_some in E as [Hin Hc'].
  split; [exact Hin|].
  apply in_map_iff in Hin as (t & <- & Ht). rewrite to_dict_title in Hc'.
  rewrite (find_window_by_value_enumeration (Some q) w d Hd).
  assert (Hm : contains_value t (Some q) = true).
  { rewrite contains_value_Some. apply orb_true_iff. left.
    unfold matches_self. apply orb_true_iff. right. rewrite Hc', andb_true_r.
    destruct (title t) eqn:Ett; [|reflexivity].
    apply str_in_of_empty, lower_empty in Hc'. contradiction. }
  destruct (find_exists (fun e => contains_value e (Some q)) _ t Ht Hm)
    as [b ->].
  now eexists.
Qed.

Lemma title_hit_is_value_hit_witness :
  In (to_dict terminal_tree) (map to_dict (window_trees session))
  /\ exists win',
       fst (find_window_by_value (Some "term") session) = Window win'.
Proof.
  apply (title_hit_is_value_hit "term" session 99).
  - reflexivity.
  - discriminate.
  - discriminate.
  - reflexivity.
Defined.



(** X18: a window [find_window_by_value] returns is one of the windows
    [get_windows] returns for the same screen, when the enumeration raises
    nowhere. *)
Theorem value_hit_is_listed (v : option string) (w : World)
    (win : WindowDict) :
  snd (enumeration w) = None ->
  fst (find_window_by_value v w) = Window win ->
  exists windows, fst (get_windows w) = Windows windows /\ In win windows.
Proof.
  intros Hf H. apply find_window_by_value_result in H as (t & Ht & -> & _).
  pose proof (get_windows_cases w) as Hc. rewrite Hf in Hc.
  destruct (window_trees w) as [|t0 ts] eqn:Et; [contradiction|].
  rewrite Hc. eexists. split; [reflexivity|]. now apply in_map.
Qed.

Lemma value_hit_is_listed_witness :
  exists windows,
    fst (get_windows session) = Windows windows
    /\ In (to_dict terminal_tree) windows.
Proof.
  apply (value_hit_is_listed (Some "needle") session); reflexivity.
Defined.

(** ** The automation handler *)

(** X14: [scroll] moves the pointer only when both coordinates are given:
    with one of them missing it does exactly what it does with none, and
    only scrolls; with both, a move that raises is reported and the wheel is
    not turned; and when [scroll] succeeds, turning the wheel by [amount]
    was its last call. *)
Theorem scroll_coordinates {float : Type} (gui : Gui float) (amount : Z)
    (x y : option Z) :
  (x = None \/ y = None ->
   scroll gui amount x y = scroll gui amount None None
   /\ forall call, In call (snd (scroll gui amount x y)) ->
                   call = pyautogui_scroll amount)
  /\ (forall px py e,
         x = Some px -> y = Some py ->
         gui [] (pyautogui_moveTo px py None) = Raise e ->
         scroll gui amount x y
         = (NotPerformed e, [pyautogui_moveTo px py None]))
  /\ (fst (scroll gui amount x y) = Performed ->
      exists before,
        snd (scroll gui amount x y) = before ++ [pyautogui_scroll amount]).
Proof.
  split; [|split].
  - intros Hxy.
    assert (scroll gui amount x y = scroll gui amount None None) as ->.
    { destruct Hxy as [-> | ->]; [reflexivity|]. now destruct x. }
    split; [reflexivity|]. unfold scroll. cbn [List.app attempt].
    destruct (gui [] (pyautogui_scroll amount)); cbn [snd List.app];
      intros call [<-|[]]; reflexivity.
  - intros px py e -> -> H. unfold scroll. cbn [List.app attempt].
    now rewrite H.
  - unfold scroll. destruct x as [px|]; destruct y as [py|];
      cbn [List.app attempt].
    + destruct (gui [] (pyautogui_moveTo px py None)); [|discriminate].
      destruct (gui _ (pyautogui_scroll amount)); [|discriminate].
      intros _. now exists [pyautogui_moveTo px py None].
    + destruct (gui [] (pyautogui_scroll amount)); [|discriminate].
      intros _. now exists [].
    + destruct (gui [] (pyautogui_scroll amount)); [|discriminate].
      intros _. now exists [].
    + destruct (gui [] (pyautogui_scroll amount)); [|discriminate].
      intros _. now exists [].
Qed.

Lemma scroll_coordinates_witness :
  scroll failsafe_gui 3 (Some 5%Z) None = scroll failsafe_gui 3 None None
  /\ scroll failsafe_gui 3 (Some 0%Z) (Some 0%Z)
     = (NotPerformed "fail-safe triggered", [pyautogui_moveTo 0 0 None]).
Proof.
  destruct (scroll_coordinates failsafe_gui 3 (Some 5%Z) None) as [H1 _].
  destruct (scroll_coordinates failsafe_gui 3 (Some 0%Z) (Some 0%Z))
    as (_ & H2 & _).
  split.
  - apply H1. now right.
  - apply (H2 0%Z 0%Z); reflexivity.
Defined.

(** ** The listing of linux.py *)

Lemma get_all_windows_lines_entries (lines : list string)
    (windows : list Wmctrl.Entry) :
  Wmctrl.get_all_windows_lines lines windows
  = Ok (windows ++ flat_map line_entries lines).
Proof.
  revert windows. induction lines as [|line lines IH]; intros windows;
    cbn [Wmctrl.get_all_windows_lines flat_map]; [now rewrite app_nil_r|].
  unfold line_entries. pose proof (split_length 3 line) as Hlen.
  destruct (PyStr.split 3 line) as [|f1 [|f2 [|f3 [|rest [|c l]]]]];
    cbn [List.length Nat.ltb Nat.leb] in *; rewrite ?IH; try reflexivity.
  - now rewrite <- app_assoc.
  - lia.
Qed.

Lemma get_all_windows_entries (run : Res string) :
  Wmctrl.get_all_windows run =
    match run with
    | Ok stdout => flat_map line_entries (PyStr.splitlines stdout)
    | Raise _ => []
    end.
Proof.
  unfold Wmctrl.get_all_windows. destruct run as [stdout|e]; cbn [bind];
    [|reflexivity].
  now rewrite get_all_windows_lines_entries.
Qed.

(** X15: [get_all_windows] of linux.py lists, in the order of the output,
    one entry for each line with at least four fields: the id is the first
    field and the title the rest of the line from its fourth field on, with
    the whitespace at its end kept; a line with fewer fields adds nothing,
    and the list is empty when wmctrl cannot be run or exits with failure. *)
Theorem get_all_windows_listing :
  (forall run e, In e (Wmctrl.get_all_windows run) ->
     exists stdout line f2 f3,
       run = Ok stdout /\ In line (PyStr.splitlines stdout)
       /\ cut_in_four line (Wmctrl.id e) f2 f3 (Wmctrl.title e))
  /\ (forall stdout, Wmctrl.get_all_windows (Ok stdout)
                     = flat_map line_entries (PyStr.splitlines stdout))
  /\ (forall line, fields line < 4 -> line_entries line = [])
  /\ (forall line f1 f2 f3 rest,
         cut_in_four line f1 f2 f3 rest ->
         line_entries line = [Wmctrl.mkEntry f1 rest])
  /\ (forall run, raises run = true -> Wmctrl.get_all_windows run = []).
Proof.
  split; [|split; [|split; [|split]]].
  - intros run e. rewrite get_all_windows_entries.
    destruct run as [stdout|err]; [|intros []].
    intros H. apply in_flat_map in H as (line & Hline & He).
    unfold line_entries in He.
    destruct (PyStr.split 3 line) as [|f1 [|f2 [|f3 [|rest [|c l]]]]] eqn:E;
      try contradiction.
    destruct He as [<-|[]]. apply split_3_inv in E.
    now exists stdout, line, f2, f3.
  - intros stdout. apply get_all_windows_entries.
  - intros line H. unfold line_entries.
    pose proof (split_length 3 line) as Hlen.
    destruct (PyStr.split 3 line) as [|f1 [|f2 [|f3 [|rest [|c l]]]]];
      try reflexivity; cbn [List.length] in Hlen; lia.
  - intros line f1 f2 f3 rest H. unfold line_entries.
    now rewrite (split_3_cut _ _ _ _ _ H).
  - intros run H. rewrite get_all_windows_entries.
    destruct run; [discriminate|reflexivity].
Qed.

Lemma get_all_windows_listing_witness :
  line_entries "0x03400009" = []
  /\ line_entries "0x03400007  0 host  My App  "
     = [Wmctrl.mkEntry "0x03400007" "My App  "]
  /\ Wmctrl.get_all_windows (Raise "exit status 1") = [].
Proof.
  destruct get_all_windows_listing as (_ & _ & H3 & H4 & H5).
  split; [|split].
  - apply H3. vm_compute. lia.
  - apply (H4 _ "0x03400007" "0" "host" "My App  ").
    exists "", "  ", " ", "  ". repeat split.
  - apply H5. reflexivity.
Defined.

(** X16: on the same output of wmctrl, the fallback of [get_windows] in
    linuxtry.py lists the windows [get_all_windows] of linux.py lists, as
    many and in the same order; the title of each stub is the title of the
    listing with the whitespace around it stripped. *)
Theorem fallback_agrees_with_listing (w : World) :
  get_windows_fallback w
  = map (fun e => wmctrl_window (Wmctrl.title e))
        (Wmctrl.get_all_windows (wmctrl w))
  /\ List.length (get_windows_fallback w)
     = List.length (Wmctrl.get_all_windows (wmctrl w)).
Proof.
  assert (H : get_windows_fallback w
              = map (fun e => wmctrl_window (Wmctrl.title e))
                    (Wmctrl.get_all_windows (wmctrl w))).
  { unfold get_windows_fallback. rewrite get_all_windows_entries.
    destruct (wmctrl w) as [stdout|e]; [|reflexivity].
    rewrite get_windows_wmctrl_lines. cbn [List.app].
    induction (PyStr.splitlines stdout) as [|line lines IH]; [reflexivity|].
    cbn [flat_map]. rewrite map_app, IH. f_equal.
    unfold line_windows, line_entries.
    now destruct (PyStr.split 3 line) as [|f1 [|f2 [|f3 [|rest [|c l]]]]]. }
  split; [exact H|]. now rewrite H, length_map.
Qed.

Lemma find_head_filter {A : Type} (p : A -> bool) (l : list A) :
  find p l = match filter p l with [] => None | a :: _ => Some a end.
Proof.
  induction l as [|a l IH]; simpl; [reflexivity|]. now destruct (p a).
Qed.

(** X17: [find_element] of linux.py looks at the title only: its role and
    value arguments change nothing; without a title ([None] or the empty
    string) it returns the first listed window; with one, the first listed
    window whose lower-cased title contains it in lower case; and when
    nothing is listed or nothing matches, a failure whose message quotes the
    title ("None" when there is none). *)
Theorem find_element_by_title (run : Res string)
    (role title value : option string) :
  Wmctrl.find_element run role title value
  = Wmctrl.find_element run None title None
  /\ (title = None \/ title = Some "" ->
      Wmctrl.find_element run role title value
      = match Wmctrl.get_all_windows run with
        | first :: _ => Wmctrl.Element first
        | [] => Wmctrl.NoElement
                  ("No window matching '" ++ PyStr.str title ++ "'")
        end)
  /\ (forall t, title = Some t -> t <> "" ->
      Wmctrl.find_element run role title value
      = match find (entry_title_contains t) (Wmctrl.get_all_windows run) with
        | Some e => Wmctrl.Element e
        | None => Wmctrl.NoElement ("No window matching '" ++ t ++ "'")
        end).
Proof.
  split; [reflexivity|]. split.
  - intros [-> | ->]; reflexivity.
  - intros t -> Ht. unfold Wmctrl.find_element.
    destruct t as [|c t]; [contradiction|]. cbn [PyStr.truthy PyStr.str].
    rewrite find_head_filter. fold (entry_title_contains (String c t)).
    now destruct (filter _ _).
Qed.

Lemma find_element_by_title_witness :
  Wmctrl.find_element (Ok listing) (Some "button") (Some "TERM") None
  = match find (entry_title_contains "TERM")
            (Wmctrl.get_all_windows (Ok listing)) with
    | Some e => Wmctrl.Element e
    | None => Wmctrl.NoElement ("No window matching '" ++ "TERM" ++ "'")
    end.
Proof.
  destruct (find_element_by_title (Ok listing) (Some "button") (Some "TERM")
              None) as (_ & _ & H).
  apply H; [reflexivity|discriminate].
Defined.
